(** * Technical indicators and rankings of the stock-trading project

    A shallow embedding of the indicator code of [stock_analyzer.py] and
    [advanced_analyzer.py] and of the ranking code of [compare_stocks.py],
    followed by the properties the specification states about them.

    Numbers.  The Python code computes on binary64 floats.  The model keeps
    the IEEE special values (the infinities and NaN), because the code
    reaches them by dividing by zero, and computes exactly (in [Q]) on
    finite values: the rounding error of binary64 and the sign of zero are
    not modelled.  [round(x, n)] is round-half-to-even at [n] decimals.

    Containers.  A Python [dict] (and a JSON object) is an association
    list in insertion order; a pandas [DataFrame] is the list of its rows,
    oldest first; a pandas [Series] is a list of floats. *)

From Stdlib Require Import QArith Qround ZArith List Bool Lia Lqa.
From Stdlib Require Import String Ascii DecimalString DecimalNat Permutation Sorted.
Import ListNotations.
Local Open Scope Q_scope.

(* ------------------------------------------------------------------ *)
(** ** Floats *)

Module Float.

Inductive float : Type :=
| Fin (q : Q)
| PInf
| NInf
| NaN.

Definition is_nan (x : float) : bool :=
  match x with NaN => true | _ => false end.

Definition is_finite (x : float) : bool :=
  match x with Fin _ => true | _ => false end.

(** Numeric equality: finite values are compared as rationals. *)
Definition feq (x y : float) : Prop :=
  match x, y with
  | Fin a, Fin b => a == b
  | PInf, PInf => True
  | NInf, NInf => True
  | NaN, NaN => True
  | _, _ => False
  end.

Definition feqb (x y : float) : bool :=
  match x, y with
  | Fin a, Fin b => Qeq_bool a b
  | PInf, PInf => true
  | NInf, NInf => true
  | NaN, NaN => true
  | _, _ => false
  end.

(** The sign of [q], as the comparison of 0 with it: [Lt] for a positive
    [q], [Gt] for a negative one. *)
Definition Qsign (q : Q) : comparison := Qcompare 0 q.

Definition fopp (x : float) : float :=
  match x with
  | Fin a => Fin (- a)
  | PInf => NInf
  | NInf => PInf
  | NaN => NaN
  end.

Definition fadd (x y : float) : float :=
  match x, y with
  | NaN, _ | _, NaN => NaN
  | Fin a, Fin b => Fin (a + b)
  | PInf, NInf | NInf, PInf => NaN
  | PInf, _ | _, PInf => PInf
  | NInf, _ | _, NInf => NInf
  end.

Definition fsub (x y : float) : float := fadd x (fopp y).

(** The infinity of sign [s]; a zero sign gives NaN (inf * 0, 0 / 0). *)
Definition signed_inf (s : comparison) : float :=
  match s with
  | Lt => PInf
  | Gt => NInf
  | Eq => NaN
  end.

Definition fsign (x : float) : option comparison :=
  match x with
  | Fin a => Some (Qsign a)
  | PInf => Some Lt
  | NInf => Some Gt
  | NaN => None
  end.

Definition sign_mul (s t : comparison) : comparison :=
  match s, t with
  | Eq, _ | _, Eq => Eq
  | Lt, Lt | Gt, Gt => Lt
  | Lt, Gt | Gt, Lt => Gt
  end.

Definition fmul (x y : float) : float :=
  match x, y with
  | NaN, _ | _, NaN => NaN
  | Fin a, Fin b => Fin (a * b)
  | _, _ =>
      match fsign x, fsign y with
      | Some s, Some t => signed_inf (sign_mul s t)
      | _, _ => NaN
      end
  end.

Definition fdiv (x y : float) : float :=
  match x, y with
  | NaN, _ | _, NaN => NaN
  | Fin a, Fin b =>
      if Qeq_bool b 0 then signed_inf (Qsign a) else Fin (a / b)
  | Fin _, _ => Fin 0
  | _, Fin b =>
      match fsign x with
      | Some s => signed_inf (sign_mul s (if Qeq_bool b 0 then Lt else Qsign b))
      | None => NaN
      end
  | _, _ => NaN
  end.

(** [x < y]; every comparison with NaN is false. *)
Definition fltb (x y : float) : bool :=
  match x, y with
  | NaN, _ | _, NaN => false
  | Fin a, Fin b => match Qcompare a b with Lt => true | _ => false end
  | NInf, NInf => false
  | NInf, _ => true
  | _, NInf => false
  | PInf, _ => false
  | _, PInf => true
  end.

Definition fgtb (x y : float) : bool := fltb y x.

(** [x <= y]; false when either side is NaN. *)
Definition fleb (x y : float) : bool :=
  match x, y with
  | NaN, _ | _, NaN => false
  | Fin a, Fin b => Qle_bool a b
  | NInf, _ => true
  | _, PInf => true
  | _, _ => false
  end.

(** Python's truth value of a float: false for zero only. *)
Definition truthy (x : float) : bool :=
  match x with
  | Fin a => negb (Qeq_bool a 0)
  | _ => true
  end.

(** Nearest integer, ties to the even one. *)
Definition round_half_even (q : Q) : Z :=
  let f := Qfloor q in
  match Qcompare (q - inject_Z f) (1 # 2) with
  | Lt => f
  | Gt => (f + 1)%Z
  | Eq => if Z.even f then f else (f + 1)%Z
  end.

Definition pow10 (n : nat) : Q := inject_Z (10 ^ Z.of_nat n).

(** [round(q, n)] on a finite value. *)
Definition Qround_nd (n : nat) (q : Q) : Q :=
  inject_Z (round_half_even (q * pow10 n)) / pow10 n.

(** [round(x, n)]: the special values are returned unchanged. *)
Definition round (x : float) (n : nat) : float :=
  match x with
  | Fin a => Fin (Qround_nd n a)
  | _ => x
  end.

Definition of_nat (n : nat) : float := Fin (inject_Z (Z.of_nat n)).

End Float.
Import Float.

(* ------------------------------------------------------------------ *)
(** ** Python dictionaries and strings *)

Module Dict.

Section WithValue.
Context {V : Type}.

Definition dict : Type := list (string * V).

(** [d.get(k)]: [None] when the key is missing. *)
Fixpoint get (k : string) (d : dict) : option V :=
  match d with
  | [] => None
  | (k', v) :: d' => if String.eqb k k' then Some v else get k d'
  end.

(** [k in d] *)
Definition mem (k : string) (d : dict) : bool :=
  match get k d with Some _ => true | None => false end.

(** [d[k] = v]: an existing key keeps its position, a new one goes last. *)
Fixpoint set (k : string) (v : V) (d : dict) : dict :=
  match d with
  | [] => [(k, v)]
  | (k', v') :: d' =>
      if String.eqb k k' then (k', v) :: d' else (k', v') :: set k v d'
  end.

Definition keys (d : dict) : list string := map fst d.
Definition values (d : dict) : list V := map snd d.

End WithValue.
Arguments dict V : clear implicits.

End Dict.

(** [sub in s] for strings. *)
Fixpoint contains (sub s : string) : bool :=
  if String.prefix sub s then true
  else match s with
       | EmptyString => false
       | String _ s' => contains sub s'
       end.

(** [f'{n}'] for a non-negative integer. *)
Definition str_nat (n : nat) : string :=
  NilEmpty.string_of_uint (Nat.to_uint n).

(** Pandas-style positional access: [s.iloc[-k]] for [k >= 1]; [None]
    stands for the IndexError of an out-of-range position. *)
Definition iloc_neg {A : Type} (s : list A) (k : nat) : option A :=
  if (k =? 0)%nat then None
  else if (List.length s <? k)%nat then None
  else nth_error s (List.length s - k).

(** A call that returns a value or raises an exception. *)
Inductive outcome (A : Type) : Type :=
| Returned (a : A)
| Raised.
Arguments Returned {A} a.
Arguments Raised {A}.

(** [l[-1]] under [if l]: the last element of a non-empty list. *)
Definition last_error {A : Type} (l : list A) : option A :=
  match l with
  | [] => None
  | p :: ps => Some (last ps p)
  end.

(** [s.tail(n)] *)
Definition tail_n {A : Type} (n : nat) (s : list A) : list A :=
  skipn (List.length s - n) s.

(* ------------------------------------------------------------------ *)
(** ** The pandas operations the analyzers use *)

Module Pandas.

Definition Series : Type := list float.

(** One row of the OHLCV frame.  The supplier delivers finite numbers. *)
Record Bar : Type := mkBar
  { Date : string; Open : Q; High : Q; Low : Q; Close : Q; Volume : Q }.

Definition DataFrame : Type := list Bar.

(** [df.empty] *)
Definition empty (df : DataFrame) : bool :=
  match df with [] => true | _ => false end.

(** [df['Close']], [df['Volume']] *)
Definition col (f : Bar -> Q) (df : DataFrame) : Series :=
  map (fun b => Fin (f b)) df.

(** [s.iloc[-1]] of a non-empty series. *)
Definition iloc_last (s : Series) : float := last s NaN.

Definition fsum (s : Series) : float := fold_left fadd s (Fin 0).

Definition fmean (s : Series) : float :=
  fdiv (fsum s) (of_nat (List.length s)).

(** [s.diff()]: NaN first, then each value minus its predecessor. *)
Fixpoint diff_from (prev : float) (s : Series) : Series :=
  match s with
  | [] => []
  | x :: s' => fsub x prev :: diff_from x s'
  end.

Definition diff (s : Series) : Series :=
  match s with
  | [] => []
  | x :: s' => NaN :: diff_from x s'
  end.

(** [s.where(cond, other)]: keeps the entries satisfying [cond]. *)
Definition where_ (cond : float -> bool) (other : float) (s : Series)
  : Series :=
  map (fun x => if cond x then x else other) s.

(** The value [s.rolling(window=w).mean()] has at the last position of the
    prefix [pre]: NaN until [w] observations are there ([min_periods]
    defaults to the window), and NaN when the window holds a NaN. *)
Definition window_mean (w : nat) (pre : Series) : float :=
  if (List.length pre <? w)%nat then NaN else fmean (tail_n w pre).

Definition rolling_mean (w : nat) (s : Series) : Series :=
  map (fun i => window_mean w (firstn (S i) s)) (seq 0 (List.length s)).

(** Elementwise arithmetic of two aligned series. *)
Fixpoint zip_with (f : float -> float -> float) (s t : Series) : Series :=
  match s, t with
  | x :: s', y :: t' => f x y :: zip_with f s' t'
  | _, _ => []
  end.

Definition fmax (x y : float) : float := if fltb x y then y else x.
Definition fmin (x y : float) : float := if fltb y x then y else x.

(** [s.max()], [s.min()]: NaN on the empty series. *)
Definition smax (s : Series) : float :=
  match s with [] => NaN | x :: s' => fold_left fmax s' x end.
Definition smin (s : Series) : float :=
  match s with [] => NaN | x :: s' => fold_left fmin s' x end.

(** [int(x)] truncates toward zero. *)
Definition Qtrunc (q : Q) : Z :=
  if Qle_bool 0 q then Qfloor q else Qceiling q.

End Pandas.
Import Pandas.

(* ------------------------------------------------------------------ *)
(** ** The analysis record, as written to and read from JSON *)

Record CurrentStats : Type := mkStats
  { current_price : float;
    stat_open : float;
    stat_high : float;
    stat_low : float;
    stat_volume : Z;
    stat_date : string }.

(** The dict an analyzer returns for one ticker; a key the dict lacks is
    [None] here.  A moving average and a price change may hold Python's
    [None], so their values are optional. *)
Record Analysis : Type := mkAnalysis
  { symbol : option string;
    name : option string;
    current_stats : option CurrentStats;
    moving_averages : option (Dict.dict (option float));
    technical_indicators : option (Dict.dict float);
    price_changes : option (Dict.dict (option float));
    error : option string }.

Definition STOCKS : Dict.dict string :=
  [ ("META", "Meta (Facebook)"); ("AAPL", "Apple"); ("AMZN", "Amazon");
    ("NFLX", "Netflix"); ("GOOGL", "Google (Alphabet)");
    ("MSFT", "Microsoft"); ("NVDA", "NVIDIA"); ("UBER", "Uber") ]%string.

(** [STOCKS.get(symbol, 'Unknown')] *)
Definition stock_name (sym : string) : string :=
  match Dict.get sym STOCKS with Some n => n | None => "Unknown"%string end.

(** The stats of the latest row; [df] is not empty where this is called. *)
Definition stats_of (latest : Bar) : CurrentStats :=
  {| current_price := round (Fin (Close latest)) 2;
     stat_open := round (Fin (Open latest)) 2;
     stat_high := round (Fin (High latest)) 2;
     stat_low := round (Fin (Low latest)) 2;
     stat_volume := Qtrunc (Volume latest);
     stat_date := Date latest |}.

Definition hundred : float := Fin 100.

(** [round(((current - old) / old) * 100, 2)] *)
Definition pct_change (current old : float) : float :=
  round (fmul (fdiv (fsub current old) old) hundred) 2.

(* ------------------------------------------------------------------ *)
(** ** stock_analyzer.py *)

Module StockAnalyzer.

Definition ma_key (period : nat) : string := (str_nat period ++ "d_MA")%string.

Definition calculate_moving_averages (df : DataFrame) (periods : list nat)
  : Dict.dict (option float) :=
  if empty df then []
  else
    fold_left
      (fun averages period =>
         if (period <=? List.length df)%nat then
           let ma := rolling_mean period (col Close df) in
           Dict.set (ma_key period) (Some (round (iloc_last ma) 2)) averages
         else
           Dict.set (ma_key period) None averages)
      periods [].

Definition get_current_stats (df : DataFrame) : option CurrentStats :=
  match df with
  | [] => None
  | b :: df' => Some (stats_of (last df' b))
  end.

(** The change against [df['Close'].iloc[-days]], or [None]. *)
Definition change_over (df : DataFrame) (stats : CurrentStats) (days : nat)
  : option float :=
  if (days <=? List.length df)%nat then
    match iloc_neg (col Close df) days with
    | Some price_ago => Some (pct_change (current_price stats) price_ago)
    | None => None
    end
  else None.

(** [analyze_stock], from the frame the fetch returned. *)
Definition analyze_stock (sym : string) (df : DataFrame) : Analysis :=
  match get_current_stats df with
  | None =>
      mkAnalysis None None None None None None (Some "Failed to fetch data"%string)
  | Some stats =>
      let ma_periods := [15; 30; 50; 100; 200]%nat in
      let moving_averages := calculate_moving_averages df ma_periods in
      let change_30d := change_over df stats 30 in
      let change_15d := change_over df stats 15 in
      {| symbol := Some sym;
         name := Some (stock_name sym);
         current_stats := Some stats;
         moving_averages := Some moving_averages;
         technical_indicators := None;
         price_changes :=
           Some [ ("15_day_change_%"%string, change_15d);
                  ("30_day_change_%"%string, change_30d) ];
         error := None |}
  end.

(** [analyze_all_stocks].  [fetch] stands for [fetch_stock_data] with the
    period of one year: the frame the supplier returns for a symbol, the
    empty frame when the fetch fails. *)
Definition analyze_all_stocks (fetch : string -> DataFrame)
  : Dict.dict Analysis :=
  fold_left
    (fun results sym => Dict.set sym (analyze_stock sym (fetch sym)) results)
    (Dict.keys STOCKS) [].

End StockAnalyzer.

(* ------------------------------------------------------------------ *)
(** ** advanced_analyzer.py *)

Module AdvancedStockAnalyzer.

Definition ma_key (period : nat) : string := (str_nat period ++ "d_MA")%string.
Definition ma_diff_key (period : nat) : string :=
  (str_nat period ++ "d_MA_diff_%")%string.
Definition change_key (days : nat) : string :=
  (str_nat days ++ "d_change_%")%string.

(** The moving average over [period] rows and the deviation of the latest
    close from it, as the loop body computes them. *)
Definition ma_last (df : DataFrame) (period : nat) : float :=
  iloc_last (rolling_mean period (col Close df)).

Definition ma_diff (df : DataFrame) (period : nat) : float :=
  let current_price := iloc_last (col Close df) in
  round (fmul (fdiv (fsub current_price (ma_last df period))
                    (ma_last df period)) hundred) 2.

Definition calculate_moving_averages (df : DataFrame) (periods : list nat)
  : Dict.dict (option float) :=
  if empty df then []
  else
    fold_left
      (fun averages period =>
         if (period <=? List.length df)%nat then
           let averages :=
             Dict.set (ma_key period) (Some (round (ma_last df period) 2))
                      averages in
           Dict.set (ma_diff_key period) (Some (ma_diff df period)) averages
         else
           let averages := Dict.set (ma_key period) None averages in
           Dict.set (ma_diff_key period) None averages)
      periods [].

(** The three series of the RSI computation. *)
Definition rsi_delta (df : DataFrame) : Series := diff (col Close df).

Definition rsi_gain (df : DataFrame) : Series :=
  rolling_mean 14
    (where_ (fun d => fgtb d (Fin 0)) (Fin 0) (rsi_delta df)).

Definition rsi_loss (df : DataFrame) : Series :=
  rolling_mean 14
    (map fopp (where_ (fun d => fltb d (Fin 0)) (Fin 0) (rsi_delta df))).

Definition rsi (df : DataFrame) : Series :=
  let rs := zip_with fdiv (rsi_gain df) (rsi_loss df) in
  map (fun r => fsub hundred (fdiv hundred (fadd (Fin 1) r))) rs.

(** [calculate_technical_indicators].  The source also stores
    [volatility_30d], a sample standard deviation, between [RSI_14] and
    [avg_volume_30d]; it needs a square root, no other entry depends on it,
    and it is left out of the model. *)
Definition calculate_technical_indicators (df : DataFrame)
  : Dict.dict float :=
  if empty df || (List.length df <? 20)%nat then []
  else
    let indicators := [] in
    let indicators :=
      if (14 <=? List.length df)%nat
      then Dict.set "RSI_14" (round (iloc_last (rsi df)) 2) indicators
      else indicators in
    let indicators :=
      Dict.set "avg_volume_30d"
        (match fmean (tail_n 30 (col Volume df)) with
         | Fin q => Fin (inject_Z (Qtrunc q))
         | x => x
         end) indicators in
    if (252 <=? List.length df)%nat then
      let indicators :=
        Dict.set "52w_high" (round (smax (tail_n 252 (col Close df))) 2)
                 indicators in
      Dict.set "52w_low" (round (smin (tail_n 252 (col Close df))) 2)
               indicators
    else indicators.

(** The loop over the look-back horizons in [analyze_stock_comprehensive]. *)
Definition price_changes_of (df : DataFrame) (stats : CurrentStats)
  : Dict.dict (option float) :=
  fold_left
    (fun price_changes days =>
       if (days <=? List.length df)%nat then
         match iloc_neg (col Close df) days with
         | Some old_price =>
             Dict.set (change_key days)
                      (Some (pct_change (current_price stats) old_price))
                      price_changes
         | None => price_changes
         end
       else price_changes)
    [1; 5; 15; 30; 90]%nat [].

(** [analyze_stock_comprehensive], from the frame Yahoo Finance returned;
    the timestamp and the entries of the other two suppliers are not
    modelled. *)
Definition analyze_stock_comprehensive (sym : string) (df : DataFrame)
  : Analysis :=
  match df with
  | [] =>
      {| symbol := Some sym; name := Some (stock_name sym);
         current_stats := None; moving_averages := None;
         technical_indicators := None; price_changes := None;
         error := Some "Failed to fetch Yahoo Finance data"%string |}
  | b :: df' =>
      let stats := stats_of (last df' b) in
      let ma_periods := [15; 30; 50; 100; 200]%nat in
      {| symbol := Some sym; name := Some (stock_name sym);
         current_stats := Some stats;
         moving_averages := Some (calculate_moving_averages df ma_periods);
         technical_indicators := Some (calculate_technical_indicators df);
         price_changes := Some (price_changes_of df stats);
         error := None |}
  end.

(** The dict [results] that the loop of [main] fills, with [fetch] for
    [fetch_yahoo_data]. *)
Definition main_results (fetch : string -> DataFrame) : Dict.dict Analysis :=
  fold_left
    (fun results sym =>
       Dict.set sym (analyze_stock_comprehensive sym (fetch sym)) results)
    (Dict.keys STOCKS) [].

(** The signal [print_comprehensive_analysis] shows beside the RSI. *)
Definition rsi_signal (rsi : float) : string :=
  if fltb rsi (Fin 30) then "Oversold"
  else if fgtb rsi (Fin 70) then "Overbought"
  else "Neutral".

End AdvancedStockAnalyzer.

(** Rows with the given closes, for examples. *)
Definition bars (closes : list Q) : DataFrame :=
  map (fun c => mkBar "2024-01-02" c c c c 1000) closes.

(* ------------------------------------------------------------------ *)
(** ** compare_stocks.py *)

Module StockComparator.

(** [self.data]: the loaded JSON object, ticker symbol to record. *)
Definition Data : Type := Dict.dict Analysis.

(** [sorted(l, key=lambda x: x[1], reverse=True)] and
    [l.sort(key=lambda x: x[1], reverse=True)].  Python's sort is stable,
    also with [reverse=True]: on keys that [<] orders totally the result
    is the one stable descending arrangement, which insertion from the
    right computes.  A NaN key is not ordered by [<]; Python's result is
    then still a permutation of the list, but its arrangement depends on
    the runs its sort detects and in general differs from the one computed
    here.  The two agree where no entry is smaller than its successor
    under [<]: Python finds the reversed list to be one ascending run and
    leaves it as it is, and so does the insertion.  Statements about the
    order are made for keys without NaN, or at such a list. *)
Fixpoint insert_desc (x : string * float) (l : list (string * float))
  : list (string * float) :=
  match l with
  | [] => [x]
  | y :: l' =>
      if fltb (snd x) (snd y) then y :: insert_desc x l' else x :: l
  end.

Definition sorted_reverse (l : list (string * float))
  : list (string * float) :=
  fold_right insert_desc [] l.

(** The list [performances] that the loop of [get_best_performers] fills. *)
Definition performances (data : Data) (period : string)
  : list (string * float) :=
  fold_left
    (fun performances (item : string * Analysis) =>
       let (sym, rec) := item in
       match price_changes rec with
       | Some changes =>
           match Dict.get period changes with
           | Some (Some change) => performances ++ [(sym, change)]
           | _ => performances
           end
       | None => performances
       end)
    data [].

Definition get_best_performers (data : Data) (period : string)
  : list (string * float) :=
  sorted_reverse (performances data period).

Record Trend : Type := mkTrend
  { trend : string;
    strength_score : Q;
    above_mas : nat;
    total_mas : nat }.

(** The dict [above_below] that the loop of [analyze_trend_strength]
    fills. *)
Definition above_below (price : float) (ma : Dict.dict (option float))
  : Dict.dict bool :=
  fold_left
    (fun above_below (item : string * option float) =>
       let (ma_name, ma_value) := item in
       match ma_value with
       | Some v =>
           if truthy v && contains "d_MA" ma_name
           then Dict.set ma_name (fgtb price v) above_below
           else above_below
       | None => above_below
       end)
    ma [].

Definition Qnat (n : nat) : Q := inject_Z (Z.of_nat n).

Definition trend_strength (above_count total_count : nat) : Q :=
  if (0 <? total_count)%nat
  then Qnat above_count / Qnat total_count * 100
  else 0.

Definition trend_label (trend_strength : Q) : string :=
  if Qle_bool 80 trend_strength then "Strong Bullish"
  else if Qle_bool 60 trend_strength then "Moderately Bullish"
  else if Qle_bool 40 trend_strength then "Neutral"
  else if Qle_bool 20 trend_strength then "Moderately Bearish"
  else "Strong Bearish".

(** [analyze_trend_strength]; [None] is the empty dict it returns for an
    unknown symbol or a record without stats or moving averages. *)
Definition analyze_trend_strength (data : Data) (sym : string)
  : option Trend :=
  match Dict.get sym data with
  | None => None
  | Some stock =>
      match current_stats stock, moving_averages stock with
      | Some stats, Some ma =>
          let price := current_price stats in
          let above_below := above_below price ma in
          let above_count :=
            List.length (filter (fun v : bool => v) (Dict.values above_below)) in
          let total_count := List.length above_below in
          let trend_strength := trend_strength above_count total_count in
          Some {| trend := trend_label trend_strength;
                  strength_score := Qround_nd 1 trend_strength;
                  above_mas := above_count;
                  total_mas := total_count |}
      | _, _ => None
      end
  end.

Definition weights : Dict.dict float :=
  [ ("15_day_change_%"%string, Fin (4 # 10));
    ("30_day_change_%"%string, Fin (6 # 10)) ].

(** The pair [(score, total_weight)] after the loop over [weights]. *)
Definition momentum_sums (changes : Dict.dict (option float))
  : float * float :=
  fold_left
    (fun (acc : float * float) (item : string * float) =>
       let (score, total_weight) := acc in
       let (period, weight) := item in
       match Dict.get period changes with
       | Some (Some change) =>
           (fadd score (fmul change weight), fadd total_weight weight)
       | _ => acc
       end)
    weights (Fin 0, Fin 0).

Definition get_momentum_score (data : Data) (sym : string) : float :=
  match Dict.get sym data with
  | None => Fin 0
  | Some rec =>
      match price_changes rec with
      | None => Fin 0
      | Some changes =>
          let (score, total_weight) := momentum_sums changes in
          round (if fgtb total_weight (Fin 0)
                 then fdiv score total_weight else Fin 0) 2
      end
  end.

(** The list [momentum_scores] of [generate_report], after its sort. *)
Definition momentum_scores (data : Data) : list (string * float) :=
  sorted_reverse
    (map (fun sym => (sym, get_momentum_score data sym)) (Dict.keys data)).

(** [analyze_trend_strength(symbol).get('strength_score', 0)] *)
Definition strength_or_zero (data : Data) (sym : string) : Q :=
  match analyze_trend_strength data sym with
  | Some t => strength_score t
  | None => 0
  end.

(** [self.data[symbol]['name']] succeeds: the record is there and has a
    name (a KeyError otherwise). *)
Definition has_name (data : Data) (sym : string) : bool :=
  match Dict.get sym data with
  | Some stock => match name stock with Some _ => true | None => false end
  | None => false
  end.

(** [f"{ma.get(key, 0):<11.2f}"] succeeds: the value is a number or the
    key is missing (then 0 is printed); [None] raises a TypeError. *)
Definition formats_as_number (v : option (option float)) : bool :=
  match v with
  | Some None => false
  | _ => true
  end.

(** The line of CURRENT PRICES & KEY AVERAGES for one record prints
    without an exception; a record without stats or averages is skipped. *)
Definition prints_averages (stock : Analysis) : bool :=
  match current_stats stock, moving_averages stock with
  | Some _, Some ma =>
      forallb (fun key => formats_as_number (Dict.get key ma))
              ["15d_MA"; "30d_MA"; "50d_MA"; "200d_MA"]%string
  | _, _ => true
  end.

(** What [generate_report] shows under KEY INSIGHTS, with the two lists
    it is taken from. *)
Record Report : Type := mkReport
  { performers : list (string * float);
    momentum_ranking : list (string * float);
    best : option (string * float);
    worst : option (string * float);
    highest_momentum : option (string * float);
    strong_bullish : list string;
    bearish : list string }.

(** [generate_report].  On empty data it returns at once
    ([Returned None]).  Otherwise its sections run in order and each can
    raise before the next is reached: the performance ranking, the trend
    table and the momentum table look up the name of every symbol they
    print (KeyError), and the table of prices formats the 15-, 30-, 50- and
    200-day averages of every record that has stats and averages
    (TypeError on [None]).  The text printed is not modelled. *)
Definition generate_report (data : Data) : outcome (option Report) :=
  match data with
  | [] => Returned None
  | _ =>
      let performers := get_best_performers data "30_day_change_%" in
      if negb (forallb (fun p => has_name data (fst p)) performers)
      then Raised
      else if negb (forallb
                      (fun sym =>
                         match analyze_trend_strength data sym with
                         | Some _ => has_name data sym
                         | None => true
                         end) (Dict.keys data))
      then Raised
      else
        let momentum := momentum_scores data in
        if negb (forallb (fun p => has_name data (fst p)) momentum)
        then Raised
        else if negb (forallb (fun item => prints_averages (snd item)) data)
        then Raised
        else
          Returned
            (Some {| performers := performers;
                     momentum_ranking := momentum;
                     best := hd_error performers;
                     worst := last_error performers;
                     highest_momentum := hd_error momentum;
                     strong_bullish :=
                       filter (fun sym =>
                                 Qle_bool 80 (strength_or_zero data sym))
                              (Dict.keys data);
                     bearish :=
                       filter (fun sym =>
                                 negb (Qle_bool 40 (strength_or_zero data sym)))
                              (Dict.keys data) |})
  end.

End StockComparator.

(* ------------------------------------------------------------------ *)
(** ** summary.py *)

Module Summary.

(** One printed line of the table. *)
Record Row : Type := mkRow
  { row_marker : string;
    row_symbol : string;
    row_name : string;
    row_price : float;
    row_change : float;
    row_trend : string;
    row_new : bool }.

(** The body of the loop of [display_summary] for one record.  [None] is
    the exception the body raises: a KeyError for a missing [name],
    [current_stats], [price_changes], [30_day_change_%],
    [moving_averages] or [30d_MA], a TypeError when the change is [None]
    (it is formatted with [+.2f]) or when the average is [None] (it is
    compared with the price). *)
Definition summary_row (sym : string) (stock : Analysis) : option Row :=
  match name stock with
  | None => None
  | Some nm =>
      match current_stats stock with
      | None => None
      | Some stats =>
          match price_changes stock with
          | None => None
          | Some changes =>
              match Dict.get "30_day_change_%" changes with
              | Some (Some change) =>
                  match moving_averages stock with
                  | None => None
                  | Some ma =>
                      match Dict.get "30d_MA" ma with
                      | Some (Some ma_30) =>
                          let current := current_price stats in
                          let bullish := fgtb current ma_30 in
                          Some {| row_marker := if bullish then "+" else "-";
                                  row_symbol := sym;
                                  row_name := nm;
                                  row_price := current;
                                  row_change := change;
                                  row_trend :=
                                    if bullish then "Bullish" else "Bearish";
                                  row_new :=
                                    String.eqb sym "NVDA"
                                    || String.eqb sym "UBER" |}
                      | _ => None
                      end
                  end
              | _ => None
              end
          end
      end
  end.

(** The rows of the loop, in order; the first exception ends it. *)
Fixpoint summary_rows (data : Dict.dict Analysis) : option (list Row) :=
  match data with
  | [] => Some []
  | (sym, stock) :: data' =>
      match summary_row sym stock with
      | None => None
      | Some row =>
          match summary_rows data' with
          | None => None
          | Some rows => Some (row :: rows)
          end
      end
  end.

Record Summary : Type := mkSummary
  { rows : list Row; winners : nat; losers : nat }.

(** [display_summary] on the loaded data: the printed rows and the two
    counts, or [None] when it raises.  The expression that counts the
    winners reads the same entries as the loop and raises nothing new. *)
Definition display_summary (data : Dict.dict Analysis) : option Summary :=
  match summary_rows data with
  | None => None
  | Some rows =>
      let winners :=
        List.length (filter (fun r => fgtb (row_change r) (Fin 0)) rows) in
      Some {| rows := rows;
              winners := winners;
              losers := List.length data - winners |}
  end.

End Summary.

(* ------------------------------------------------------------------ *)
(** ** visualizer.py *)

Module StockVisualizer.

(** The series [normalized] of [plot_comparison]:
    [(df['Close'] / df['Close'].iloc[0] - 1) * 100], computed for a frame
    that is not empty. *)
Definition normalized (df : DataFrame) : Series :=
  match col Close df with
  | [] => []
  | first :: _ =>
      map (fun c => fmul (fsub (fdiv c first) (Fin 1)) hundred)
          (col Close df)
  end.

End StockVisualizer.

(* ------------------------------------------------------------------ *)
(** ** Auxiliary definitions for the statements *)

(** The loop bodies of the analyzers, as stores under computed keys. *)
Definition step1 {V : Type} (k1 : nat -> string) (v1 : nat -> V)
           (acc : Dict.dict V) (p : nat) : Dict.dict V :=
  Dict.set (k1 p) (v1 p) acc.

Definition step2 {V : Type} (k1 k2 : nat -> string) (v1 v2 : nat -> V)
           (acc : Dict.dict V) (p : nat) : Dict.dict V :=
  Dict.set (k2 p) (v2 p) (Dict.set (k1 p) (v1 p) acc).


(** The last character of a string. *)
Fixpoint last_char (s : string) : option ascii :=
  match s with
  | EmptyString => None
  | String c EmptyString => Some c
  | String _ s' => last_char s'
  end.

(** Sum and mean of a list of rationals. *)
Definition Qsum (l : list Q) : Q := fold_left Qplus l 0.

Definition Qmean (l : list Q) : Q := Qsum l / inject_Z (Z.of_nat (List.length l)).

(** The values the moving-average loops store for a period. *)
Definition sa_ma_value (df : DataFrame) (period : nat) : option float :=
  if (period <=? List.length df)%nat
  then Some (round (AdvancedStockAnalyzer.ma_last df period) 2)
  else None.

Definition adv_diff_value (df : DataFrame) (period : nat) : option float :=
  if (period <=? List.length df)%nat
  then Some (AdvancedStockAnalyzer.ma_diff df period)
  else None.

(** A finite value that is not negative; a value that is not infinite. *)
Definition nonneg_fin (x : float) : Prop := exists q, x = Fin q /\ 0 <= q.

Definition not_inf (x : float) : Prop := x <> PInf /\ x <> NInf.

(** The RSI formula on the last rolling means of gains and losses. *)
Definition rsi_of (gain loss : float) : float :=
  fsub hundred (fdiv hundred (fadd (Fin 1) (fdiv gain loss))).

(** [d[key]] of a price-change dict as a finite number. *)
Definition change_is (d : option (Dict.dict (option float))) (key : string)
           (q : Q) : Prop :=
  match d with
  | Some changes =>
      match Dict.get key changes with
      | Some (Some (Fin x)) => x == q
      | _ => False
      end
  | None => False
  end.

(** [a] may stand before [b] in a descending ranking. *)
Definition desc (a b : string * float) : Prop := fleb (snd b) (snd a) = true.

(** No ranked value is NaN. *)
Definition no_nan (l : list (string * float)) : Prop :=
  Forall (fun e => is_nan (snd e) = false) l.

(** Entries whose key is [k]. *)
Definition with_key (k : float) (l : list (string * float))
  : list (string * float) :=
  filter (fun e => feqb (snd e) k) l.



(** What one record adds to [performances]. *)
Definition performance_of (period : string) (item : string * Analysis)
  : list (string * float) :=
  match price_changes (snd item) with
  | Some changes =>
      match Dict.get period changes with
      | Some (Some change) => [(fst item, change)]
      | _ => []
      end
  | None => []
  end.

(** The pairs [(symbol, score)] before [generate_report] sorts them. *)
Definition scored (data : StockComparator.Data) : list (string * float) :=
  map (fun sym => (sym, StockComparator.get_momentum_score data sym))
      (Dict.keys data).

(** The moving averages that take part in the counts: entries whose value
    is true in Python's sense (not [None], not zero) and whose name
    contains [d_MA]. *)
Definition participants (ma : Dict.dict (option float))
  : list (string * float) :=
  flat_map
    (fun item : string * option float =>
       match snd item with
       | Some v =>
           if truthy v && contains "d_MA" (fst item) then [(fst item, v)]
           else []
       | None => []
       end) ma.


(* ------------------------------------------------------------------ *)
(** ** Example inputs *)


(** Two closes of 0. *)
Definition two_bar_frame : DataFrame := bars [0; 0].

(** Fifteen closes of 0. *)
Definition zero_frame : DataFrame := bars (repeat 0 15).


(** Closes 100 and 110. *)
Definition up_frame : DataFrame := bars [100; 110].

(** Twenty closes of 100. *)
Definition flat_frame : DataFrame := bars (repeat 100 20).

(** Ten closes of 100, one of 99.99, nine of 1100. *)
Definition jump_frame : DataFrame :=
  bars (repeat 100 10 ++ [9999 # 100] ++ repeat 1100 9).

(** A single close of 100. *)
Definition one_bar_frame : DataFrame := bars [100].

(** A close of 100 followed by fourteen closes of 110. *)
Definition fifteen_bar_frame : DataFrame := bars (100 :: repeat 110 14).

(** A record as [stock_analyzer.py] writes it, reduced to the entries the
    rankings read. *)
Definition record_of (title : string) (price : Q)
           (ma : Dict.dict (option float)) (c15 c30 : option float)
  : Analysis :=
  {| symbol := None; name := Some title;
     current_stats :=
       Some (mkStats (Fin price) (Fin price) (Fin price) (Fin price) 0 "");
     moving_averages := Some ma;
     technical_indicators := None;
     price_changes :=
       Some [ ("15_day_change_%"%string, c15);
              ("30_day_change_%"%string, c30) ];
     error := None |}.

(** The record of a ticker whose fetch failed. *)
Definition error_record : Analysis :=
  mkAnalysis None None None None None None (Some "Failed to fetch data"%string).

(** One analysed ticker and one whose fetch failed. *)
Definition data_with_error : StockComparator.Data :=
  [ ("AAPL"%string, record_of "Apple" 190 [] (Some (Fin 2)) (Some (Fin 3)));
    ("UBER"%string, error_record) ].


(** A at +10, B at -5, C without a 30-day change. *)
Definition data_abc : StockComparator.Data :=
  [ ("A"%string, record_of "A Corp" 50 [] (Some (Fin 1)) (Some (Fin 10)));
    ("B"%string, record_of "B Corp" 60 [] (Some (Fin 2)) (Some (Fin (-5))));
    ("C"%string, record_of "C Corp" 70 [] None None) ].

(** Two tickers with equal changes, in both orders. *)
Definition tie_record : Analysis :=
  record_of "Tie" 100 [] (Some (Fin 5)) (Some (Fin 5)).

Definition data_ba : StockComparator.Data :=
  [ ("B"%string, tie_record); ("A"%string, tie_record) ].

Definition data_ab : StockComparator.Data :=
  [ ("A"%string, tie_record); ("B"%string, tie_record) ].

(** A price of 100 against averages of 90, 110 and 120; the two long
    averages are [None]. *)
Definition three_ma_data : StockComparator.Data :=
  [ ("UBER"%string,
     record_of "Uber" 100
       [ ("15d_MA"%string, Some (Fin 90));
         ("30d_MA"%string, Some (Fin 110));
         ("50d_MA"%string, Some (Fin 120));
         ("100d_MA"%string, None);
         ("200d_MA"%string, None) ]
       (Some (Fin 1)) (Some (Fin 2))) ].

(* ------------------------------------------------------------------ *)
(** ** Auxiliary definitions for the further properties *)

(** The windows both analyzers pass to [calculate_moving_averages]. *)
Definition ma_periods : list nat := [15; 30; 50; 100; 200]%nat.

(** A supplier that returns [n] bars, with closes 100, 101, ..., for each
    symbol. *)
Definition rising_frame (n : nat) : DataFrame :=
  bars (map (fun i => inject_Z (Z.of_nat (100 + i))) (seq 0 n)).

(** A supplier whose fetch fails for UBER and returns 40 bars otherwise. *)
Definition fetch_without_uber (sym : string) : DataFrame :=
  if String.eqb sym "UBER" then [] else rising_frame 40.

(** [o is not None] *)
Definition is_some {A : Type} (o : option A) : bool :=
  match o with Some _ => true | None => false end.

(** The record of [three_ma_data] at a price of 115, above two of the
    three averages. *)
Definition three_ma_data_up : StockComparator.Data :=
  [ ("UBER"%string,
     record_of "Uber" 115
       [ ("15d_MA"%string, Some (Fin 90));
         ("30d_MA"%string, Some (Fin 110));
         ("50d_MA"%string, Some (Fin 120));
         ("100d_MA"%string, None);
         ("200d_MA"%string, None) ]
       (Some (Fin 1)) (Some (Fin 2))) ].

(** [d[key]] of an optional dict when the dict is there, has the key and
    the value is not [None]. *)
Definition defined_entry (d : option (Dict.dict (option float)))
           (key : string) : option float :=
  match d with
  | Some entries =>
      match Dict.get key entries with
      | Some (Some v) => Some v
      | _ => None
      end
  | None => None
  end.

(** What [display_summary] needs of a record: a name, the current stats,
    a 30-day change and a 30-day average that are not [None]. *)
Definition summary_ready (stock : Analysis) : bool :=
  is_some (name stock) && is_some (current_stats stock)
  && is_some (defined_entry (price_changes stock) "30_day_change_%")
  && is_some (defined_entry (moving_averages stock) "30d_MA").

(** A supplier that returns 40 rising bars for every symbol. *)
Definition fetch_forty (sym : string) : DataFrame := rising_frame 40.

(* ------------------------------------------------------------------ *)
(** ** Auxiliary definitions for the rounding and the report *)


(** The averages that the table of prices prints. *)
Definition printed_averages : list string :=
  ["15d_MA"; "30d_MA"; "50d_MA"; "200d_MA"]%string.

(** Every record the data holds for a symbol has a name, and no record
    with stats and averages holds [None] under a printed average. *)
Definition report_ready (data : StockComparator.Data) : Prop :=
  (forall sym stock, Dict.get sym data = Some stock -> name stock <> None)
  /\ (forall sym stock stats ma key,
        In (sym, stock) data ->
        current_stats stock = Some stats ->
        moving_averages stock = Some ma ->
        In key printed_averages ->
        Dict.get key ma <> Some None).


(** Three tickers with 30-day changes 1, NaN and 2, in this order, and no
    15-day change. *)
Definition data_nan : StockComparator.Data :=
  [ ("A"%string, record_of "A Corp" 50 [] None (Some (Fin 1)));
    ("N"%string, record_of "N Corp" 60 [] None (Some NaN));
    ("B"%string, record_of "B Corp" 70 [] None (Some (Fin 2))) ].

(** One analysed ticker and the record [analyze_stock_comprehensive]
    returns after a failed fetch, which has a name and no stats. *)
Definition data_named_error : StockComparator.Data :=
  [ ("AAPL"%string, record_of "Apple" 190 [] (Some (Fin 2)) (Some (Fin 3)));
    ("UBER"%string,
     AdvancedStockAnalyzer.analyze_stock_comprehensive "UBER" []) ].

(* ================================================================== *)
(** * Properties *)

(** ** Rounding *)

Lemma Qcompare_cases (a b : Q) :
  (Qcompare a b = Lt /\ a < b) \/ (Qcompare a b = Eq /\ a == b)
  \/ (Qcompare a b = Gt /\ b < a).
Proof.
  destruct (Qcompare a b) eqn:E.
  - right; left; split; [reflexivity | now apply Qeq_alt].
  - left; split; [reflexivity | now apply Qlt_alt].
  - right; right; split; [reflexivity | now apply Qgt_alt].
Qed.

Lemma round_half_even_floor (q : Q) :
  round_half_even q = Qfloor q \/ round_half_even q = (Qfloor q + 1)%Z.
Proof.
  unfold round_half_even.
  destruct (Qcompare (q - inject_Z (Qfloor q)) (1 # 2)); auto.
  destruct (Z.even (Qfloor q)); auto.
Qed.

Lemma round_half_even_Z (z : Z) : round_half_even (inject_Z z) = z.
Proof.
  unfold round_half_even. rewrite Qfloor_Z.
  destruct (Qcompare_cases (inject_Z z - inject_Z z) (1 # 2))
    as [[-> _] | [[_ H] | [_ H]]]; [reflexivity | lra | lra].
Qed.

Lemma round_half_even_mono (x y : Q) :
  x <= y -> (round_half_even x <= round_half_even y)%Z.
Proof.
  intros Hxy.
  pose proof (Qfloor_resp_le _ _ Hxy) as Hf.
  destruct (Z.eq_dec (Qfloor x) (Qfloor y)) as [E | NE].
  - unfold round_half_even. rewrite <- E.
    destruct (Qcompare_cases (x - inject_Z (Qfloor x)) (1 # 2))
      as [[-> Hx] | [[-> Hx] | [-> Hx]]];
      destruct (Qcompare_cases (y - inject_Z (Qfloor x)) (1 # 2))
        as [[-> Hy] | [[-> Hy] | [-> Hy]]];
      try destruct (Z.even (Qfloor x)); try lia; lra.
  - assert (Qfloor x + 1 <= Qfloor y)%Z by lia.
    destruct (round_half_even_floor x) as [-> | ->];
      destruct (round_half_even_floor y) as [-> | ->]; lia.
Qed.

Lemma pow10_pos (n : nat) : 0 < pow10 n.
Proof.
  unfold pow10. change 0 with (inject_Z 0). rewrite <- Zlt_Qlt.
  apply Z.pow_pos_nonneg; lia.
Qed.

Lemma Qround_nd_mono (n : nat) (x y : Q) :
  x <= y -> Qround_nd n x <= Qround_nd n y.
Proof.
  intros Hxy. unfold Qround_nd.
  pose proof (pow10_pos n) as Hp.
  apply Qmult_le_compat_r.
  - rewrite <- Zle_Qle. apply round_half_even_mono.
    apply Qmult_le_compat_r; [assumption | now apply Qlt_le_weak].
  - apply Qlt_le_weak, Qinv_lt_0_compat, Hp.
Qed.

Lemma Qround_nd_Z (n : nat) (z : Z) : Qround_nd n (inject_Z z) == inject_Z z.
Proof.
  unfold Qround_nd, pow10.
  rewrite <- inject_Z_mult, round_half_even_Z, inject_Z_mult.
  pose proof (pow10_pos n) as Hp. unfold pow10 in Hp.
  field. lra.
Qed.

Lemma Qround_nd_compat (n : nat) (x y : Q) :
  x == y -> Qround_nd n x == Qround_nd n y.
Proof.
  intros E. apply Qle_antisym; apply Qround_nd_mono; rewrite E; apply Qle_refl.
Qed.

Lemma Qround_nd_nonneg (n : nat) (x : Q) : 0 <= x -> 0 <= Qround_nd n x.
Proof.
  intros H. rewrite <- (Qround_nd_Z n 0). now apply Qround_nd_mono.
Qed.


(** ** Dictionaries and keys *)

Lemma get_set_same {V : Type} (k : string) (v : V) (d : Dict.dict V) :
  Dict.get k (Dict.set k v d) = Some v.
Proof.
  induction d as [| [k' v'] d IH]; simpl.
  - now rewrite String.eqb_refl.
  - destruct (String.eqb k k') eqn:E; simpl; rewrite E; auto.
Qed.

Lemma get_set_other {V : Type} (k k' : string) (v : V) (d : Dict.dict V) :
  k <> k' -> Dict.get k (Dict.set k' v d) = Dict.get k d.
Proof.
  intros Hne. induction d as [| [k0 v0] d IH]; simpl.
  - apply String.eqb_neq in Hne. now rewrite Hne.
  - destruct (String.eqb k' k0) eqn:E; simpl.
    + apply String.eqb_eq in E. subst k0.
      apply String.eqb_neq in Hne. now rewrite Hne.
    + now rewrite IH.
Qed.

Lemma length_set_new {V : Type} (k : string) (v : V) (d : Dict.dict V) :
  Dict.get k d = None -> Dict.set k v d = d ++ [(k, v)].
Proof.
  induction d as [| [k0 v0] d IH]; simpl; [reflexivity |].
  destruct (String.eqb k k0); [discriminate |].
  intros H. now rewrite IH.
Qed.

Lemma last_char_append (s t : string) :
  t <> EmptyString -> last_char (s ++ t) = last_char t.
Proof.
  intros Ht. induction s as [| c s IH]; simpl; [reflexivity |].
  rewrite <- IH. destruct (s ++ t)%string eqn:E; [| reflexivity].
  destruct s; simpl in E; [now subst t | discriminate].
Qed.

Lemma string_length_append (s t : string) :
  String.length (s ++ t) = (String.length s + String.length t)%nat.
Proof. induction s as [| c s IH]; simpl; [reflexivity | now rewrite IH]. Qed.

Lemma append_cancel_r (s1 s2 t : string) :
  (s1 ++ t)%string = (s2 ++ t)%string -> s1 = s2.
Proof.
  revert s2. induction s1 as [| c s1 IH]; intros [| c2 s2] H; simpl in H.
  - reflexivity.
  - apply (f_equal String.length) in H. simpl in H.
    rewrite string_length_append in H. lia.
  - apply (f_equal String.length) in H. simpl in H.
    rewrite string_length_append in H. lia.
  - injection H as -> H. f_equal. now apply IH.
Qed.

Lemma str_nat_inj (n m : nat) : str_nat n = str_nat m -> n = m.
Proof.
  unfold str_nat. intros H.
  apply DecimalNat.Unsigned.to_uint_inj.
  apply (f_equal NilEmpty.uint_of_string) in H.
  rewrite !NilEmpty.usu in H. now injection H.
Qed.

(** A loop that stores one or two entries per element, under keys that
    never collide: afterwards an element's keys hold its own values. *)
Section FoldSet.
Context {V : Type}.
Variables (k1 k2 : nat -> string) (v1 v2 : nat -> V).
Hypothesis k1_inj : forall p q, k1 p = k1 q -> p = q.
Hypothesis k2_inj : forall p q, k2 p = k2 q -> p = q.
Hypothesis k12 : forall p q, k1 p <> k2 q.

Lemma fold_step1_get (ps : list nat) (n : nat) : forall acc,
  In n ps \/ Dict.get (k1 n) acc = Some (v1 n) ->
  Dict.get (k1 n) (fold_left (step1 k1 v1) ps acc) = Some (v1 n).
Proof.
  induction ps as [| p ps IH]; intros acc H; simpl.
  - destruct H as [[] | H]; exact H.
  - apply IH. unfold step1.
    destruct (Nat.eq_dec p n) as [-> | Hne].
    + right. apply get_set_same.
    + destruct H as [[E | HI] | H]; [contradiction | now left |].
      right. rewrite get_set_other; [exact H |].
      intros E. apply Hne. symmetry. now apply k1_inj.
Qed.

Lemma fold_step2_get (ps : list nat) (n : nat) : forall acc,
  In n ps \/ (Dict.get (k1 n) acc = Some (v1 n)
              /\ Dict.get (k2 n) acc = Some (v2 n)) ->
  Dict.get (k1 n) (fold_left (step2 k1 k2 v1 v2) ps acc) = Some (v1 n)
  /\ Dict.get (k2 n) (fold_left (step2 k1 k2 v1 v2) ps acc) = Some (v2 n).
Proof.
  induction ps as [| p ps IH]; intros acc H; simpl.
  - destruct H as [[] | H]; exact H.
  - apply IH. unfold step2.
    destruct (Nat.eq_dec p n) as [-> | Hne].
    + right. split.
      * rewrite get_set_other by apply k12. apply get_set_same.
      * apply get_set_same.
    + destruct H as [[E | HI] | [H1 H2]]; [contradiction | now left |].
      right. split.
      * rewrite get_set_other by apply k12.
        rewrite get_set_other; [exact H1 |].
        intros E. apply Hne. symmetry. now apply k1_inj.
      * rewrite get_set_other.
        -- rewrite get_set_other; [exact H2 |].
           intros E. symmetry in E. revert E. apply k12.
        -- intros E. apply Hne. symmetry. now apply k2_inj.
Qed.

End FoldSet.

Lemma sa_ma_key_inj (p q : nat) :
  StockAnalyzer.ma_key p = StockAnalyzer.ma_key q -> p = q.
Proof.
  unfold StockAnalyzer.ma_key. intros H.
  apply str_nat_inj. now apply append_cancel_r in H.
Qed.

Lemma adv_ma_key_inj (p q : nat) :
  AdvancedStockAnalyzer.ma_key p = AdvancedStockAnalyzer.ma_key q -> p = q.
Proof. apply sa_ma_key_inj. Qed.

Lemma adv_ma_diff_key_inj (p q : nat) :
  AdvancedStockAnalyzer.ma_diff_key p = AdvancedStockAnalyzer.ma_diff_key q
  -> p = q.
Proof.
  unfold AdvancedStockAnalyzer.ma_diff_key. intros H.
  apply str_nat_inj. now apply append_cancel_r in H.
Qed.

Lemma adv_ma_keys_apart (p q : nat) :
  AdvancedStockAnalyzer.ma_key p <> AdvancedStockAnalyzer.ma_diff_key q.
Proof.
  unfold AdvancedStockAnalyzer.ma_key, AdvancedStockAnalyzer.ma_diff_key.
  intros H. apply (f_equal last_char) in H.
  rewrite !last_char_append in H by discriminate.
  discriminate.
Qed.

(** ** Series *)

Lemma length_diff_from (s : Series) : forall p,
  List.length (diff_from p s) = List.length s.
Proof. induction s as [| x s IH]; intros p; simpl; [reflexivity | now rewrite IH]. Qed.

Lemma length_diff (s : Series) : List.length (diff s) = List.length s.
Proof. destruct s; simpl; [reflexivity | now rewrite length_diff_from]. Qed.

Lemma length_where (c : float -> bool) (o : float) (s : Series) :
  List.length (where_ c o s) = List.length s.
Proof. apply length_map. Qed.

Lemma last_map_seq {A : Type} (g : nat -> A) (n : nat) (d : A) :
  last (map g (seq 0 (S n))) d = g n.
Proof. rewrite seq_S, map_app. simpl. apply last_last. Qed.

Lemma iloc_last_rolling (w : nat) (s : Series) :
  s <> [] -> iloc_last (rolling_mean w s) = window_mean w s.
Proof.
  intros Hs. unfold iloc_last, rolling_mean.
  destruct (List.length s) as [| n] eqn:E.
  - destruct s; [contradiction | discriminate].
  - rewrite last_map_seq. rewrite <- E. now rewrite firstn_all.
Qed.

Lemma fold_fadd_fin (l : list Q) : forall a,
  fold_left fadd (map Fin l) (Fin a) = Fin (fold_left Qplus l a).
Proof. induction l as [| x l IH]; intros a; simpl; [reflexivity | apply IH]. Qed.

Lemma fsum_fin (l : list Q) : fsum (map Fin l) = Fin (Qsum l).
Proof. apply fold_fadd_fin. Qed.

Lemma tail_n_map {A B : Type} (f : A -> B) (n : nat) (l : list A) :
  tail_n n (map f l) = map f (tail_n n l).
Proof. unfold tail_n. now rewrite length_map, skipn_map. Qed.

Lemma length_tail_n {A : Type} (n : nat) (l : list A) :
  (n <= List.length l)%nat -> List.length (tail_n n l) = n.
Proof. intros H. unfold tail_n. rewrite length_skipn. lia. Qed.

Lemma Qeq_bool_false (a b : Q) : ~ a == b -> Qeq_bool a b = false.
Proof.
  intros H. destruct (Qeq_bool a b) eqn:E; [| reflexivity].
  apply Qeq_bool_eq in E. contradiction.
Qed.

Lemma Qeq_bool_true (a b : Q) : a == b -> Qeq_bool a b = true.
Proof. apply Qeq_eq_bool. Qed.

Lemma Qnat_pos (n : nat) : (1 <= n)%nat -> 0 < inject_Z (Z.of_nat n).
Proof. intros H. change 0 with (inject_Z 0). rewrite <- Zlt_Qlt. lia. Qed.

(** The rolling mean at the last row is the mean of the last [w] values. *)
Lemma window_mean_fin (w : nat) (l : list Q) :
  (1 <= w)%nat -> (w <= List.length l)%nat ->
  window_mean w (map Fin l) = Fin (Qmean (tail_n w l)).
Proof.
  intros Hw Hl. unfold window_mean.
  rewrite length_map.
  destruct (Nat.ltb_spec (List.length l) w) as [Hlt | _]; [lia |].
  rewrite tail_n_map. unfold fmean. rewrite fsum_fin, length_map.
  unfold of_nat, fdiv, Qmean.
  rewrite length_tail_n by assumption.
  rewrite Qeq_bool_false; [reflexivity |].
  pose proof (Qnat_pos w Hw). lra.
Qed.

Lemma col_as_map (f : Bar -> Q) (df : DataFrame) :
  col f df = map Fin (map f df).
Proof. unfold col. now rewrite map_map. Qed.

Lemma ma_last_fin (df : DataFrame) (w : nat) :
  (1 <= w)%nat -> (w <= List.length df)%nat ->
  AdvancedStockAnalyzer.ma_last df w
  = Fin (Qmean (tail_n w (map Close df))).
Proof.
  intros Hw Hl. unfold AdvancedStockAnalyzer.ma_last.
  rewrite iloc_last_rolling.
  - rewrite col_as_map. apply window_mean_fin; [assumption |].
    now rewrite length_map.
  - destruct df; simpl in *; [lia | discriminate].
Qed.

(** ** Presence of the indicators *)

Lemma fold_left_agree {A B : Type} (f g : A -> B -> A) (l : list B) :
  (forall a b, f a b = g a b) -> forall a, fold_left f l a = fold_left g l a.
Proof.
  intros H. induction l as [| b l IH]; intros a; simpl; [reflexivity |].
  now rewrite H, IH.
Qed.

Lemma sa_moving_averages_get (df : DataFrame) (periods : list nat) (n : nat) :
  df <> [] -> In n periods ->
  Dict.get (StockAnalyzer.ma_key n)
           (StockAnalyzer.calculate_moving_averages df periods)
  = Some (sa_ma_value df n).
Proof.
  intros Hdf Hin. unfold StockAnalyzer.calculate_moving_averages.
  destruct df as [| b df']; [contradiction |].
  cbn [empty].
  rewrite (fold_left_agree _ (step1 StockAnalyzer.ma_key (sa_ma_value (b :: df')))).
  - apply fold_step1_get; [exact sa_ma_key_inj | now left].
  - intros a p. unfold step1, sa_ma_value, AdvancedStockAnalyzer.ma_last.
    destruct (p <=? List.length (b :: df'))%nat; reflexivity.
Qed.

Lemma adv_moving_averages_get (df : DataFrame) (periods : list nat) (n : nat) :
  df <> [] -> In n periods ->
  Dict.get (AdvancedStockAnalyzer.ma_key n)
           (AdvancedStockAnalyzer.calculate_moving_averages df periods)
  = Some (sa_ma_value df n)
  /\ Dict.get (AdvancedStockAnalyzer.ma_diff_key n)
              (AdvancedStockAnalyzer.calculate_moving_averages df periods)
     = Some (adv_diff_value df n).
Proof.
  intros Hdf Hin. unfold AdvancedStockAnalyzer.calculate_moving_averages.
  destruct df as [| b df']; [contradiction |].
  cbn [empty].
  rewrite (fold_left_agree _
             (step2 AdvancedStockAnalyzer.ma_key AdvancedStockAnalyzer.ma_diff_key
                    (sa_ma_value (b :: df')) (adv_diff_value (b :: df')))).
  - apply fold_step2_get;
      [exact adv_ma_key_inj | exact adv_ma_diff_key_inj
       | exact adv_ma_keys_apart | now left].
  - intros a p. unfold step2, sa_ma_value, adv_diff_value.
    destruct (p <=? List.length (b :: df'))%nat; reflexivity.
Qed.

Lemma technical_indicators_rsi (df : DataFrame) :
  Dict.get "RSI_14" (AdvancedStockAnalyzer.calculate_technical_indicators df)
  = if (20 <=? List.length df)%nat
    then Some (round (iloc_last (AdvancedStockAnalyzer.rsi df)) 2)
    else None.
Proof.
  unfold AdvancedStockAnalyzer.calculate_technical_indicators.
  destruct (Nat.leb_spec 20 (List.length df)) as [H | H].
  - destruct df as [| b df']; [simpl in H; lia |].
    cbn [empty orb].
    destruct (Nat.ltb_spec (List.length (b :: df')) 20) as [H' | _]; [lia |].
    destruct (Nat.leb_spec 14 (List.length (b :: df'))) as [_ | H']; [| lia].
    destruct (252 <=? List.length (b :: df'))%nat;
      repeat (rewrite get_set_other by discriminate);
      apply get_set_same.
  - destruct df as [| b df']; [reflexivity |].
    cbn [empty orb].
    destruct (Nat.ltb_spec (List.length (b :: df')) 20) as [_ | H']; [| lia].
    reflexivity.
Qed.

(** ** Deviation from the moving average *)

Lemma last_map_fin (l : list Q) :
  l <> [] -> last (map Fin l) NaN = Fin (last l 0).
Proof.
  induction l as [| x l IH]; [contradiction |].
  intros _. destruct l as [| y l]; [reflexivity |].
  change (last (map Fin (y :: l)) NaN = Fin (last (y :: l) 0)).
  apply IH. discriminate.
Qed.

Lemma iloc_last_col (f : Bar -> Q) (df : DataFrame) :
  df <> [] -> iloc_last (col f df) = Fin (last (map f df) 0).
Proof.
  intros H. rewrite col_as_map. apply last_map_fin.
  destruct df; [contradiction | discriminate].
Qed.

Lemma Qcompare_lt (a b : Q) : a < b -> Qcompare a b = Lt.
Proof. apply Qlt_alt. Qed.

Lemma Qcompare_gt (a b : Q) : b < a -> Qcompare a b = Gt.
Proof. apply Qgt_alt. Qed.

Lemma Qcompare_eq (a b : Q) : a == b -> Qcompare a b = Eq.
Proof. apply Qeq_alt. Qed.

(** [(c - m) / m * 100] for [m = 0]: the quotient is infinite or NaN and
    stays so through the product and the rounding. *)
Lemma pct_of_zero (c m : Q) :
  m == 0 ->
  round (fmul (fdiv (fsub (Fin c) (Fin m)) (Fin m)) hundred) 2
  = match Qcompare 0 c with Lt => PInf | Eq => NaN | Gt => NInf end.
Proof.
  intros Hm. unfold fsub, fopp, fadd, fdiv.
  rewrite (Qeq_bool_true m 0 Hm). unfold Qsign.
  destruct (Qcompare_cases 0 c) as [[E H] | [[E H] | [E H]]]; rewrite E.
  - rewrite Qcompare_lt by lra. reflexivity.
  - rewrite Qcompare_eq by lra. reflexivity.
  - rewrite Qcompare_gt by lra. reflexivity.
Qed.

Lemma pct_sign (c m : Q) :
  0 < m ->
  let x := (c + - m) / m * 100 in
  (m < c -> 0 < x) /\ (c < m -> x < 0) /\ (c == m -> x == 0).
Proof.
  intros Hm x.
  assert (Hk : 0 < / m * 100).
  { apply Qmult_lt_0_compat; [now apply Qinv_lt_0_compat | reflexivity]. }
  assert (Hx : x == (c + - m) * (/ m * 100)).
  { unfold x. field. lra. }
  repeat split; intros H; rewrite Hx.
  - apply Qmult_lt_0_compat; lra.
  - assert (0 < (m + - c) * (/ m * 100)) by (apply Qmult_lt_0_compat; lra).
    assert ((m + - c) * (/ m * 100) == - ((c + - m) * (/ m * 100))) by ring.
    lra.
  - rewrite H. ring.
Qed.

(** C8 (as amended): when the moving average is 0 the deviation entry is
    still written, no error is raised, and the value is NaN (latest close
    0) or an infinity with the sign of the latest close. *)
Theorem ma_diff_of_zero_average (df : DataFrame) (periods : list nat)
        (n : nat) :
  In n periods -> (1 <= n)%nat -> (n <= List.length df)%nat ->
  feq (AdvancedStockAnalyzer.ma_last df n) (Fin 0) ->
  let c := last (map Close df) 0 in
  exists d,
    Dict.get (AdvancedStockAnalyzer.ma_diff_key n)
             (AdvancedStockAnalyzer.calculate_moving_averages df periods)
    = Some (Some d)
    /\ is_finite d = false
    /\ (c == 0 -> d = NaN) /\ (0 < c -> d = PInf) /\ (c < 0 -> d = NInf).
Proof.
  intros Hin Hn Hlen Hz c.
  assert (Hdf : df <> []) by (destruct df; simpl in *; [lia | discriminate]).
  destruct (adv_moving_averages_get df periods n Hdf Hin) as [_ Hd].
  rewrite Hd. unfold adv_diff_value.
  destruct (Nat.leb_spec n (List.length df)); [| lia].
  unfold AdvancedStockAnalyzer.ma_diff.
  rewrite iloc_last_col by assumption. fold c.
  destruct (AdvancedStockAnalyzer.ma_last df n) as [m | | |];
    simpl in Hz; try contradiction.
  rewrite (pct_of_zero c m Hz).
  eexists. split; [reflexivity |].
  destruct (Qcompare_cases 0 c) as [[E H'] | [[E H'] | [E H']]]; rewrite E;
    repeat split; intros; try reflexivity; lra.
Qed.

Lemma ma_diff_of_zero_average_witness :
  In 2%nat [2]%nat /\ (1 <= 2)%nat /\ (2 <= List.length two_bar_frame)%nat
  /\ feq (AdvancedStockAnalyzer.ma_last two_bar_frame 2) (Fin 0)
  /\ exists d,
       Dict.get (AdvancedStockAnalyzer.ma_diff_key 2)
         (AdvancedStockAnalyzer.calculate_moving_averages two_bar_frame [2]%nat)
       = Some (Some d)
       /\ is_finite d = false.
Proof.
  assert (Hin : In 2%nat [2]%nat) by (simpl; auto).
  assert (Hn : (1 <= 2)%nat) by lia.
  assert (Hl : (2 <= List.length two_bar_frame)%nat) by (simpl; lia).
  assert (Hz : feq (AdvancedStockAnalyzer.ma_last two_bar_frame 2) (Fin 0))
    by (vm_compute; reflexivity).
  repeat (split; [assumption |]).
  destruct (ma_diff_of_zero_average two_bar_frame [2]%nat 2%nat Hin Hn Hl Hz)
    as [d [Hd [Hf _]]].
  exists d. split; assumption.
Defined.

(** C8 as stated fails: fifteen closes of 0 have a 15-day average of 0,
    and the deviation entry holds NaN instead of being absent. *)
Lemma ma_diff_nan_on_zero_closes :
  (15 <= List.length zero_frame)%nat
  /\ feq (AdvancedStockAnalyzer.ma_last zero_frame 15) (Fin 0)
  /\ Dict.get (AdvancedStockAnalyzer.ma_diff_key 15)
       (AdvancedStockAnalyzer.calculate_moving_averages zero_frame
          [15; 30; 50; 100; 200]%nat)
     = Some (Some NaN).
Proof.
  split; [vm_compute; lia |]. split; vm_compute; reflexivity.
Qed.

Lemma pct_of_positive (c m : Q) :
  0 < m ->
  round (fmul (fdiv (fsub (Fin c) (Fin m)) (Fin m)) hundred) 2
  = Fin (Qround_nd 2 ((c + - m) / m * 100)).
Proof.
  intros Hm. unfold fsub, fopp, fadd, fdiv.
  rewrite Qeq_bool_false by lra. reflexivity.
Qed.




(** ** Relative strength index *)

Lemma diff_from_not_inf (cs : list Q) : forall p,
  Forall not_inf (diff_from (Fin p) (map Fin cs)).
Proof.
  induction cs as [| c cs IH]; intros p; simpl; constructor.
  - split; discriminate.
  - apply IH.
Qed.

Lemma diff_not_inf (cs : list Q) : Forall not_inf (diff (map Fin cs)).
Proof.
  destruct cs as [| c cs]; simpl; constructor.
  - split; discriminate.
  - apply diff_from_not_inf.
Qed.

Lemma gain_entry_nonneg (x : float) :
  not_inf x -> nonneg_fin (if fgtb x (Fin 0) then x else Fin 0).
Proof.
  intros [Hp Hn]. destruct x as [q | | |]; try contradiction.
  - unfold fgtb, fltb.
    destruct (Qcompare_cases 0 q) as [[E H] | [[E H] | [E H]]]; rewrite E.
    + exists q. split; [reflexivity | lra].
    + exists 0. split; [reflexivity | lra].
    + exists 0. split; [reflexivity | lra].
  - exists 0. split; [reflexivity | lra].
Qed.

Lemma loss_entry_nonneg (x : float) :
  not_inf x -> nonneg_fin (fopp (if fltb x (Fin 0) then x else Fin 0)).
Proof.
  intros [Hp Hn]. destruct x as [q | | |]; try contradiction.
  - unfold fltb.
    destruct (Qcompare_cases q 0) as [[E H] | [[E H] | [E H]]]; rewrite E;
      simpl; eexists; (split; [reflexivity | lra]).
  - simpl. eexists; (split; [reflexivity | lra]).
Qed.

Lemma nonneg_fin_list (s : Series) :
  Forall nonneg_fin s ->
  exists l, s = map Fin l /\ Forall (fun q => 0 <= q) l.
Proof.
  induction 1 as [| x s [q [-> Hq]] _ [l [-> Hl]]].
  - exists []. split; [reflexivity | constructor].
  - exists (q :: l). split; [reflexivity | now constructor].
Qed.

Lemma fold_Qplus_nonneg (l : list Q) : forall a,
  0 <= a -> Forall (fun q => 0 <= q) l -> 0 <= fold_left Qplus l a.
Proof.
  induction l as [| x l IH]; intros a Ha Hl; simpl; [assumption |].
  inversion Hl; subst. apply IH; [lra | assumption].
Qed.

Lemma Qmean_nonneg (l : list Q) :
  Forall (fun q => 0 <= q) l -> 0 <= Qmean l.
Proof.
  intros Hl. unfold Qmean, Qdiv.
  apply Qmult_le_0_compat.
  - apply fold_Qplus_nonneg; [lra | assumption].
  - apply Qinv_le_0_compat. change 0 with (inject_Z 0).
    rewrite <- Zle_Qle. lia.
Qed.

Lemma Forall_tail_n {A : Type} (P : A -> Prop) (n : nat) (l : list A) :
  Forall P l -> Forall P (tail_n n l).
Proof.
  unfold tail_n. intros H. rewrite <- (firstn_skipn (List.length l - n) l) in H.
  now apply Forall_app in H.
Qed.

(** The rolling mean of a series of non-negative finite values. *)
Lemma rolling_nonneg (w : nat) (s : Series) :
  (1 <= w)%nat -> (w <= List.length s)%nat -> Forall nonneg_fin s ->
  nonneg_fin (iloc_last (rolling_mean w s)).
Proof.
  intros Hw Hl Hs.
  destruct (nonneg_fin_list s Hs) as [l [-> Hq]].
  rewrite length_map in Hl.
  rewrite iloc_last_rolling by (destruct l; simpl in *; [lia | discriminate]).
  rewrite window_mean_fin by assumption.
  eexists. split; [reflexivity |].
  apply Qmean_nonneg, Forall_tail_n, Hq.
Qed.

Lemma Forall_map_intro {A B : Type} (P : A -> Prop) (R : B -> Prop)
      (f : A -> B) (l : list A) :
  (forall x, P x -> R (f x)) -> Forall P l -> Forall R (map f l).
Proof. intros H. induction 1; simpl; constructor; auto. Qed.

Lemma rsi_gain_nonneg (df : DataFrame) :
  (14 <= List.length df)%nat ->
  nonneg_fin (iloc_last (AdvancedStockAnalyzer.rsi_gain df)).
Proof.
  intros H. unfold AdvancedStockAnalyzer.rsi_gain,
    AdvancedStockAnalyzer.rsi_delta.
  apply rolling_nonneg; [lia | |].
  - rewrite length_where, length_diff. unfold col. now rewrite length_map.
  - unfold where_. apply (Forall_map_intro not_inf).
    + apply gain_entry_nonneg.
    + rewrite col_as_map. apply diff_not_inf.
Qed.

Lemma rsi_loss_nonneg (df : DataFrame) :
  (14 <= List.length df)%nat ->
  nonneg_fin (iloc_last (AdvancedStockAnalyzer.rsi_loss df)).
Proof.
  intros H. unfold AdvancedStockAnalyzer.rsi_loss,
    AdvancedStockAnalyzer.rsi_delta.
  apply rolling_nonneg; [lia | |].
  - rewrite length_map, length_where, length_diff. unfold col.
    now rewrite length_map.
  - unfold where_. rewrite map_map. apply (Forall_map_intro not_inf).
    + apply loss_entry_nonneg.
    + rewrite col_as_map. apply diff_not_inf.
Qed.

Lemma zip_with_map (f : float -> float -> float) {A : Type}
      (a b : A -> float) (l : list A) :
  zip_with f (map a l) (map b l) = map (fun x => f (a x) (b x)) l.
Proof. induction l as [| x l IH]; simpl; [reflexivity | now rewrite IH]. Qed.

(** The last RSI value comes from the last rolling means alone. *)
Lemma rsi_last (df : DataFrame) :
  df <> [] ->
  iloc_last (AdvancedStockAnalyzer.rsi df)
  = rsi_of (iloc_last (AdvancedStockAnalyzer.rsi_gain df))
           (iloc_last (AdvancedStockAnalyzer.rsi_loss df)).
Proof.
  intros Hdf.
  unfold AdvancedStockAnalyzer.rsi, AdvancedStockAnalyzer.rsi_gain,
    AdvancedStockAnalyzer.rsi_loss, rolling_mean, iloc_last.
  set (G := where_ (fun d => fgtb d (Fin 0)) (Fin 0)
                   (AdvancedStockAnalyzer.rsi_delta df)).
  set (L := map fopp (where_ (fun d => fltb d (Fin 0)) (Fin 0)
                             (AdvancedStockAnalyzer.rsi_delta df))).
  assert (HG : List.length G = List.length df).
  { unfold G, AdvancedStockAnalyzer.rsi_delta, col.
    now rewrite length_where, length_diff, length_map. }
  assert (HL : List.length L = List.length df).
  { unfold L, AdvancedStockAnalyzer.rsi_delta, col.
    now rewrite length_map, length_where, length_diff, length_map. }
  rewrite HG, HL, zip_with_map, map_map.
  destruct (List.length df) as [| n] eqn:E.
  - destruct df; [contradiction | discriminate].
  - rewrite !last_map_seq. reflexivity.
Qed.

Lemma rsi_of_no_move (g l : Q) :
  g == 0 -> l == 0 -> round (rsi_of (Fin g) (Fin l)) 2 = NaN.
Proof.
  intros Hg Hl. unfold rsi_of, fdiv at 2.
  rewrite (Qeq_bool_true l 0 Hl). unfold Qsign.
  rewrite Qcompare_eq by lra. reflexivity.
Qed.

Lemma rsi_of_no_loss (g l : Q) :
  0 < g -> l == 0 -> feq (round (rsi_of (Fin g) (Fin l)) 2) (Fin 100).
Proof.
  intros Hg Hl. unfold rsi_of, fdiv at 2.
  rewrite (Qeq_bool_true l 0 Hl). unfold Qsign.
  rewrite Qcompare_lt by lra.
  change (Qround_nd 2 (100 + - 0) == 100).
  transitivity (Qround_nd 2 (inject_Z 100)).
  - apply Qround_nd_compat. unfold inject_Z. lra.
  - apply (Qround_nd_Z 2 100).
Qed.

Lemma rsi_of_loss (g l : Q) :
  0 <= g -> 0 < l ->
  exists q, round (rsi_of (Fin g) (Fin l)) 2 = Fin q /\ 0 <= q <= 100.
Proof.
  intros Hg Hl. unfold rsi_of, fdiv at 2.
  rewrite Qeq_bool_false by lra.
  assert (Hr : 0 <= g / l).
  { unfold Qdiv. apply Qmult_le_0_compat; [assumption |].
    apply Qinv_le_0_compat. lra. }
  cbn [fadd]. unfold hundred, fdiv.
  rewrite Qeq_bool_false by lra.
  cbn [fsub fopp fadd round].
  eexists. split; [reflexivity |].
  set (r := g / l) in *.
  assert (Hq : 0 <= 100 / (1 + r) <= 100).
  { split.
    - unfold Qdiv. apply Qmult_le_0_compat; [lra |].
      apply Qinv_le_0_compat. lra.
    - apply Qle_shift_div_r; lra. }
  split.
  - apply Qround_nd_nonneg. lra.
  - apply Qle_trans with (Qround_nd 2 (inject_Z 100)).
    + apply Qround_nd_mono. unfold inject_Z. lra.
    + rewrite Qround_nd_Z. unfold inject_Z. lra.
Qed.

(** C2 (as amended): for a series of at least 20 bars the RSI entry is
    written, from the last rolling means [g] of the gains and [l] of the
    losses, both finite and non-negative.  With [l = 0] and [g > 0] the
    value is 100; with [l = 0] and [g = 0] (no move in the window) it is
    NaN; with [l > 0] it lies in [0, 100], and there the rounding to two
    decimals can still give 100.  A value below 100 has [l > 0]. *)
Theorem rsi_value (df : DataFrame) :
  (20 <= List.length df)%nat ->
  exists g l v,
    iloc_last (AdvancedStockAnalyzer.rsi_gain df) = Fin g
    /\ iloc_last (AdvancedStockAnalyzer.rsi_loss df) = Fin l
    /\ 0 <= g /\ 0 <= l
    /\ Dict.get "RSI_14"
         (AdvancedStockAnalyzer.calculate_technical_indicators df) = Some v
    /\ (l == 0 -> 0 < g -> feq v (Fin 100))
    /\ (l == 0 -> g == 0 -> v = NaN)
    /\ (0 < l -> exists q, v = Fin q /\ 0 <= q <= 100)
    /\ (forall q, v = Fin q -> 0 <= q <= 100)
    /\ (forall q, v = Fin q -> q < 100 -> 0 < l).
Proof.
  intros Hlen.
  destruct (rsi_gain_nonneg df) as [g [Hg Hg0]]; [lia |].
  destruct (rsi_loss_nonneg df) as [l [Hl Hl0]]; [lia |].
  exists g, l, (round (rsi_of (Fin g) (Fin l)) 2).
  assert (Hdf : df <> []) by (destruct df; simpl in *; [lia | discriminate]).
  rewrite technical_indicators_rsi.
  destruct (Nat.leb_spec 20 (List.length df)); [| lia].
  rewrite (rsi_last df Hdf), Hg, Hl.
  repeat (split; [solve [reflexivity | assumption] |]).
  assert (Hno : l == 0 -> 0 < g -> feq (round (rsi_of (Fin g) (Fin l)) 2) (Fin 100))
    by (intros; now apply rsi_of_no_loss).
  assert (Hnan : l == 0 -> g == 0 -> round (rsi_of (Fin g) (Fin l)) 2 = NaN)
    by (intros; now apply rsi_of_no_move).
  assert (Hin : 0 < l -> exists q, round (rsi_of (Fin g) (Fin l)) 2 = Fin q
                                   /\ 0 <= q <= 100)
    by (intros; now apply rsi_of_loss).
  split; [exact Hno |]. split; [exact Hnan |]. split; [exact Hin |].
  assert (Hcase : 0 < l \/ l == 0) by (apply Qle_lteq in Hl0; destruct Hl0; [now left | right; lra]).
  assert (Hgcase : 0 < g \/ g == 0) by (apply Qle_lteq in Hg0; destruct Hg0; [now left | right; lra]).
  split.
  - intros q Hv. destruct Hcase as [Hp | Hz].
    + destruct (Hin Hp) as [q' [E B]]. rewrite E in Hv.
      injection Hv as <-. exact B.
    + destruct Hgcase as [Hgp | Hgz].
      * specialize (Hno Hz Hgp). rewrite Hv in Hno. simpl in Hno. lra.
      * rewrite (Hnan Hz Hgz) in Hv. discriminate.
  - intros q Hv Hq. destruct Hcase as [Hp | Hz]; [assumption |].
    destruct Hgcase as [Hgp | Hgz].
    + specialize (Hno Hz Hgp). rewrite Hv in Hno. simpl in Hno. lra.
    + rewrite (Hnan Hz Hgz) in Hv. discriminate.
Qed.

Lemma rsi_value_witness :
  (20 <= List.length jump_frame)%nat
  /\ exists v,
       Dict.get "RSI_14"
         (AdvancedStockAnalyzer.calculate_technical_indicators jump_frame)
       = Some v.
Proof.
  assert (H : (20 <= List.length jump_frame)%nat) by (vm_compute; lia).
  split; [exact H |].
  destruct (rsi_value jump_frame H) as [g [l [v [_ [_ [_ [_ [Hv _]]]]]]]].
  exists v. exact Hv.
Defined.

(** C2 as stated fails twice.  On twenty equal closes the mean loss is 0
    and the RSI is NaN, not 100.  On a series with one loss of 0.01 and one
    gain of 1000.01 in the window the mean loss is positive and the
    reported RSI is 100. *)
Lemma rsi_nan_on_flat_series :
  (feq (iloc_last (AdvancedStockAnalyzer.rsi_loss flat_frame)) (Fin 0)
   /\ Dict.get "RSI_14"
        (AdvancedStockAnalyzer.calculate_technical_indicators flat_frame)
      = Some NaN)
  /\ (fltb (Fin 0) (iloc_last (AdvancedStockAnalyzer.rsi_loss jump_frame)) = true
      /\ exists q,
           Dict.get "RSI_14"
             (AdvancedStockAnalyzer.calculate_technical_indicators jump_frame)
           = Some (Fin q)
           /\ q == 100).
Proof.
  split; split.
  - vm_compute. reflexivity.
  - vm_compute. reflexivity.
  - vm_compute. reflexivity.
  - eexists. split; [vm_compute; reflexivity | reflexivity].
Qed.

(** ** Price changes *)

Section FoldSetOpt.
Context {V : Type}.
Variables (k : nat -> string) (v : nat -> option V).
Hypothesis k_inj : forall p q, k p = k q -> p = q.





End FoldSetOpt.


Lemma iloc_neg_col (df : DataFrame) (h : nat) :
  (1 <= h)%nat -> (h <= List.length df)%nat ->
  iloc_neg (col Close df) h
  = Some (Fin (nth (List.length df - h) (map Close df) 0)).
Proof.
  intros H1 H2. unfold iloc_neg.
  destruct (Nat.eqb_spec h 0) as [-> | _]; [lia |].
  unfold col at 1. rewrite length_map.
  destruct (Nat.ltb_spec (List.length df) h) as [? | _]; [lia |].
  rewrite col_as_map, length_map.
  rewrite nth_error_map.
  rewrite (nth_error_nth' (map Close df) 0) by (rewrite length_map; lia).
  rewrite length_map. reflexivity.
Qed.


(** C1: the code at inputs where it departs from the claim.  With a single
    bar the 1-day change is stored (the claim needs more than one bar) and
    is 0; with closes 100 then 110 the 1-day change is 0, not 10, because
    [iloc[-1]] is the latest close itself; in [stock_analyzer.py] a series
    of exactly 15 bars gets a 15-day change, measured against the close 14
    rows before the last. *)
Theorem price_change_off_by_one :
  change_is (price_changes
               (AdvancedStockAnalyzer.analyze_stock_comprehensive "AAPL"
                  one_bar_frame)) "1d_change_%" 0
  /\ change_is (price_changes
                  (AdvancedStockAnalyzer.analyze_stock_comprehensive "AAPL"
                     up_frame)) "1d_change_%" 0
  /\ List.length fifteen_bar_frame = 15%nat
  /\ change_is (price_changes
                  (StockAnalyzer.analyze_stock "AAPL" fifteen_bar_frame))
               "15_day_change_%" 10.
Proof. repeat split; vm_compute; reflexivity. Qed.

(** ** Sorting *)

Lemma fltb_fleb (x y : float) : fltb x y = true -> fleb x y = true.
Proof.
  destruct x as [a | | |], y as [b | | |]; simpl; try discriminate; auto.
  destruct (Qcompare_cases a b) as [[E H] | [[E H] | [E H]]]; rewrite E;
    try discriminate.
  intros _. apply Qle_bool_iff. lra.
Qed.

Lemma not_fltb_fleb (x y : float) :
  is_nan x = false -> is_nan y = false ->
  fltb x y = false -> fleb y x = true.
Proof.
  destruct x as [a | | |], y as [b | | |]; simpl; try discriminate; auto.
  destruct (Qcompare_cases a b) as [[E H] | [[E H] | [E H]]]; rewrite E;
    try discriminate; intros _ _ _; apply Qle_bool_iff; lra.
Qed.

Lemma fleb_trans (x y z : float) :
  fleb x y = true -> fleb y z = true -> fleb x z = true.
Proof.
  destruct x as [a | | |], y as [b | | |], z as [c | | |]; simpl;
    try discriminate; auto.
  rewrite !Qle_bool_iff. intros; lra.
Qed.

Lemma insert_desc_perm (x : string * float) (l : list (string * float)) :
  Permutation (StockComparator.insert_desc x l) (x :: l).
Proof.
  induction l as [| y l IH]; simpl; [reflexivity |].
  destruct (fltb (snd x) (snd y)); [| reflexivity].
  rewrite IH. apply perm_swap.
Qed.

Lemma sorted_reverse_perm (l : list (string * float)) :
  Permutation (StockComparator.sorted_reverse l) l.
Proof.
  induction l as [| x l IH]; simpl; [reflexivity |].
  rewrite insert_desc_perm. now constructor.
Qed.

Lemma no_nan_perm (l l' : list (string * float)) :
  Permutation l l' -> no_nan l -> no_nan l'.
Proof. intros P H. unfold no_nan in *. now rewrite <- P. Qed.

Lemma insert_desc_sorted (x : string * float) (l : list (string * float)) :
  is_nan (snd x) = false -> no_nan l ->
  StronglySorted desc l -> StronglySorted desc (StockComparator.insert_desc x l).
Proof.
  intros Hx Hl Hs. induction Hs as [| y l Hs IH Hy]; simpl.
  - repeat constructor.
  - inversion Hl as [| ? ? Hyn Hln]; subst.
    destruct (fltb (snd x) (snd y)) eqn:E.
    + constructor; [now apply IH |].
      rewrite insert_desc_perm.
      constructor; [| exact Hy]. unfold desc. now apply fltb_fleb.
    + assert (Hxy : desc x y) by (unfold desc; now apply not_fltb_fleb).
      constructor; [now constructor |].
      constructor; [exact Hxy |].
      eapply Forall_impl; [| exact Hy].
      intros z Hz. unfold desc in *. eapply fleb_trans; eassumption.
Qed.

Lemma sorted_reverse_sorted (l : list (string * float)) :
  no_nan l -> StronglySorted desc (StockComparator.sorted_reverse l).
Proof.
  induction 1 as [| x l Hx Hl IH]; simpl; [constructor |].
  apply insert_desc_sorted; [exact Hx | | exact IH].
  eapply no_nan_perm; [symmetry; apply sorted_reverse_perm | exact Hl].
Qed.

Lemma feqb_fltb (x y k : float) :
  feqb x k = true -> fltb x y = true -> feqb y k = false.
Proof.
  destruct x as [a | | |], y as [b | | |], k as [c | | |]; simpl;
    try discriminate; auto.
  intros H1 H2. apply Qeq_bool_eq in H1.
  destruct (Qcompare_cases a b) as [[E H] | [[E H] | [E H]]]; rewrite E in H2;
    try discriminate.
  apply Qeq_bool_false. lra.
Qed.

Lemma insert_desc_with_key (k : float) (x : string * float)
      (l : list (string * float)) :
  with_key k (StockComparator.insert_desc x l) = with_key k (x :: l).
Proof.
  induction l as [| y l IH]; [reflexivity |].
  cbn [StockComparator.insert_desc].
  destruct (fltb (snd x) (snd y)) eqn:E; [| reflexivity].
  unfold with_key in *. cbn [filter] in *. rewrite IH.
  destruct (feqb (snd x) k) eqn:Ex; [| reflexivity].
  now rewrite (feqb_fltb _ _ _ Ex E).
Qed.

(** The sort is stable: entries with equal keys keep their order. *)
Lemma sorted_reverse_stable (k : float) (l : list (string * float)) :
  with_key k (StockComparator.sorted_reverse l) = with_key k l.
Proof.
  induction l as [| x l IH]; [reflexivity |].
  cbn [StockComparator.sorted_reverse fold_right].
  rewrite insert_desc_with_key.
  unfold with_key in *. cbn [filter]. fold (StockComparator.sorted_reverse l).
  now rewrite IH.
Qed.

(** ** Momentum *)

Lemma in_sorted_reverse (e : string * float) (l : list (string * float)) :
  In e l -> In e (StockComparator.sorted_reverse l).
Proof.
  intros H. eapply Permutation_in; [| exact H].
  symmetry. apply sorted_reverse_perm.
Qed.

(** C10: a symbol that is not in the data, or whose record has no
    [price_changes], scores exactly 0, and such a symbol of the data is in
    the momentum ranking with that score. *)
Theorem momentum_zero_without_changes (data : StockComparator.Data)
        (sym : string) :
  Dict.get sym data = None
  \/ (exists rec, Dict.get sym data = Some rec /\ price_changes rec = None) ->
  StockComparator.get_momentum_score data sym = Fin 0
  /\ (In sym (Dict.keys data) ->
      In (sym, Fin 0) (StockComparator.momentum_scores data)).
Proof.
  intros H.
  assert (E : StockComparator.get_momentum_score data sym = Fin 0).
  { unfold StockComparator.get_momentum_score.
    destruct H as [-> | [rec [-> ->]]]; reflexivity. }
  split; [exact E |].
  intros Hin. unfold StockComparator.momentum_scores.
  apply in_sorted_reverse. rewrite <- E.
  apply (in_map (fun s => (s, StockComparator.get_momentum_score data s))).
  exact Hin.
Qed.

Lemma momentum_zero_without_changes_witness :
  In ("UBER"%string, Fin 0) (StockComparator.momentum_scores data_with_error).
Proof.
  apply (momentum_zero_without_changes data_with_error "UBER").
  - right. exists error_record. split; reflexivity.
  - simpl. auto.
Defined.





(** ** Rankings *)

Lemma fold_left_app_flat_map {A B : Type} (f : A -> list B) (l : list A) :
  forall acc, fold_left (fun acc x => acc ++ f x) l acc = acc ++ flat_map f l.
Proof.
  induction l as [| x l IH]; intros acc; simpl.
  - now rewrite app_nil_r.
  - now rewrite IH, app_assoc.
Qed.

Lemma performances_flat_map (data : StockComparator.Data) (period : string) :
  StockComparator.performances data period
  = flat_map (performance_of period) data.
Proof.
  unfold StockComparator.performances.
  rewrite (fold_left_agree _ (fun acc x => acc ++ performance_of period x)).
  - apply (fold_left_app_flat_map (performance_of period) data []).
  - intros acc [sym rec]. unfold performance_of. simpl.
    destruct (price_changes rec) as [changes |]; [| now rewrite app_nil_r].
    destruct (Dict.get period changes) as [[c |] |];
      [reflexivity | now rewrite app_nil_r | now rewrite app_nil_r].
Qed.

Lemma in_performances (data : StockComparator.Data) (period sym : string)
      (v : float) :
  In (sym, v) (StockComparator.performances data period)
  <-> exists rec changes,
        In (sym, rec) data /\ price_changes rec = Some changes
        /\ Dict.get period changes = Some (Some v).
Proof.
  rewrite performances_flat_map, in_flat_map. split.
  - intros [[s rec] [Hin H]]. unfold performance_of in H. simpl in H.
    destruct (price_changes rec) as [changes |] eqn:Ec; [| destruct H].
    destruct (Dict.get period changes) as [[c |] |] eqn:Eg; try destruct H.
    + injection H as -> ->. exists rec, changes. auto.
    + destruct H.
  - intros [rec [changes [Hin [Ec Eg]]]]. exists (sym, rec).
    split; [exact Hin |]. unfold performance_of. simpl.
    rewrite Ec, Eg. now left.
Qed.

Lemma fleb_refl (x : float) : is_nan x = false -> fleb x x = true.
Proof.
  destruct x as [a | | |]; simpl; try discriminate; auto.
  intros _. apply Qle_bool_iff. lra.
Qed.

Lemma sorted_head_greatest (b : string * float) (l : list (string * float)) :
  no_nan (b :: l) -> StronglySorted desc (b :: l) ->
  forall e, In e (b :: l) -> fleb (snd e) (snd b) = true.
Proof.
  intros Hn Hs e [<- | Hin].
  - apply fleb_refl. now inversion Hn.
  - inversion Hs as [| ? ? _ Hall]; subst.
    rewrite Forall_forall in Hall. now apply Hall.
Qed.





(** C7 (as amended): the momentum ranking holds every symbol of the data
    with its score, in descending order of the score, and symbols with
    equal scores stay in the order in which the data lists them; the
    symbol itself is never compared.  No score is NaN. *)
Theorem momentum_ranking_stable (data : StockComparator.Data) :
  no_nan (scored data) ->
  Permutation (StockComparator.momentum_scores data) (scored data)
  /\ StronglySorted desc (StockComparator.momentum_scores data)
  /\ (forall k, with_key k (StockComparator.momentum_scores data)
                = with_key k (scored data)).
Proof.
  intros Hn. unfold StockComparator.momentum_scores. fold (scored data).
  split; [apply sorted_reverse_perm |].
  split; [now apply sorted_reverse_sorted |].
  intros k. apply sorted_reverse_stable.
Qed.

Lemma momentum_ranking_stable_witness :
  StronglySorted desc (StockComparator.momentum_scores data_abc).
Proof.
  assert (Hn : no_nan (scored data_abc)) by (vm_compute; repeat constructor).
  destruct (momentum_ranking_stable data_abc Hn) as [_ [Hs _]].
  exact Hs.
Defined.

(** ** Trend strength *)

Lemma above_below_from (price : float) (ma : Dict.dict (option float)) :
  NoDup (Dict.keys ma) ->
  forall acc,
    (forall k, In k (Dict.keys ma) -> Dict.get k acc = None) ->
    fold_left
      (fun above_below (item : string * option float) =>
         let (ma_name, ma_value) := item in
         match ma_value with
         | Some v =>
             if truthy v && contains "d_MA" ma_name
             then Dict.set ma_name (fgtb price v) above_below
             else above_below
         | None => above_below
         end) ma acc
    = acc ++ map (fun e => (fst e, fgtb price (snd e))) (participants ma).
Proof.
  induction ma as [| [k ov] ma IH]; intros Hnd acc Hacc.
  - simpl. now rewrite app_nil_r.
  - cbn [Dict.keys map fst] in Hnd. inversion Hnd as [| ? ? Hk Hnd']; subst.
    cbn [fold_left].
    assert (Hrest : forall k', In k' (Dict.keys ma) -> Dict.get k' acc = None).
    { intros k' Hin. apply Hacc. now right. }
    unfold participants. cbn [flat_map fst snd].
    fold (participants ma).
    destruct ov as [v |]; [| now apply IH].
    destruct (truthy v && contains "d_MA" k); [| now apply IH].
    rewrite IH; [| exact Hnd' |].
    + rewrite length_set_new by (apply Hacc; now left).
      now rewrite <- app_assoc.
    + intros k' Hin. rewrite get_set_other; [now apply Hrest |].
      intros ->. now apply Hk.
Qed.

Lemma above_below_participants (price : float)
      (ma : Dict.dict (option float)) :
  NoDup (Dict.keys ma) ->
  StockComparator.above_below price ma
  = map (fun e => (fst e, fgtb price (snd e))) (participants ma).
Proof.
  intros Hnd. unfold StockComparator.above_below.
  now rewrite (above_below_from price ma Hnd []).
Qed.



Lemma trend_label_cases (s : Q) :
  (80 <= s -> StockComparator.trend_label s = "Strong Bullish"%string)
  /\ (60 <= s -> s < 80 ->
      StockComparator.trend_label s = "Moderately Bullish"%string)
  /\ (40 <= s -> s < 60 -> StockComparator.trend_label s = "Neutral"%string)
  /\ (20 <= s -> s < 40 ->
      StockComparator.trend_label s = "Moderately Bearish"%string)
  /\ (s < 20 -> StockComparator.trend_label s = "Strong Bearish"%string).
Proof.
  unfold StockComparator.trend_label.
  destruct (Qle_bool 80 s) eqn:E80; [apply Qle_bool_iff in E80 |];
    destruct (Qle_bool 60 s) eqn:E60; [apply Qle_bool_iff in E60 | |
                                       apply Qle_bool_iff in E60 |];
    destruct (Qle_bool 40 s) eqn:E40; try apply Qle_bool_iff in E40;
    destruct (Qle_bool 20 s) eqn:E20; try apply Qle_bool_iff in E20;
    repeat split; intros; try reflexivity; try lra;
    repeat match goal with
           | H : Qle_bool ?a s = false |- _ =>
               assert (~ a <= s)
                 by (intros C; apply Qle_bool_iff in C; congruence);
               clear H
           end; lra.
Qed.




(* ================================================================== *)
(** * Further properties of the code *)

(** ** Loops that fill a dict *)

Lemma get_app_none {V : Type} (k : string) (d d' : Dict.dict V) :
  Dict.get k d = None -> Dict.get k (d ++ d') = Dict.get k d'.
Proof.
  induction d as [| [k0 v0] d IH]; simpl; [reflexivity |].
  destruct (String.eqb k k0); [discriminate | exact IH].
Qed.

Lemma get_map_keyed {V : Type} (f : string -> V) (ks : list string)
      (k : string) :
  Dict.get k (map (fun s => (s, f s)) ks)
  = if in_dec string_dec k ks then Some (f k) else None.
Proof.
  induction ks as [| k0 ks IH]; simpl; [reflexivity |].
  destruct (String.eqb_spec k k0) as [-> | Hne].
  - destruct (string_dec k0 k0); [reflexivity | contradiction].
  - rewrite IH. destruct (string_dec k0 k) as [E | Hne']; [now subst |].
    destruct (in_dec string_dec k ks); reflexivity.
Qed.

(** Storing under keys that are new and pairwise distinct appends the
    entries in order. *)
Lemma fold_set_fresh {V : Type} (f : string -> V) (ks : list string) :
  NoDup ks ->
  forall acc,
    (forall k, In k ks -> Dict.get k acc = None) ->
    fold_left (fun acc s => Dict.set s (f s) acc) ks acc
    = acc ++ map (fun s => (s, f s)) ks.
Proof.
  induction 1 as [| k ks Hk Hnd IH]; intros acc Hacc; simpl.
  - now rewrite app_nil_r.
  - rewrite IH.
    + rewrite length_set_new by (apply Hacc; now left).
      now rewrite <- app_assoc.
    + intros k' Hin. rewrite get_set_other.
      * apply Hacc. now right.
      * intros ->. contradiction.
Qed.

Section FoldFresh.
Context {V : Type}.
Variables (k1 k2 : nat -> string) (v1 v2 : nat -> V).
Hypothesis k1_inj : forall p q, k1 p = k1 q -> p = q.
Hypothesis k2_inj : forall p q, k2 p = k2 q -> p = q.
Hypothesis k12 : forall p q, k1 p <> k2 q.

Lemma fold_step1_fresh (ps : list nat) :
  NoDup ps ->
  forall acc,
    (forall p, In p ps -> Dict.get (k1 p) acc = None) ->
    fold_left (step1 k1 v1) ps acc = acc ++ map (fun p => (k1 p, v1 p)) ps.
Proof.
  induction 1 as [| p ps Hp Hnd IH]; intros acc Hacc; simpl.
  - now rewrite app_nil_r.
  - rewrite IH.
    + unfold step1. rewrite length_set_new by (apply Hacc; now left).
      now rewrite <- app_assoc.
    + intros q Hin. unfold step1. rewrite get_set_other.
      * apply Hacc. now right.
      * intros E. apply k1_inj in E. subst q. contradiction.
Qed.

Lemma fold_step2_fresh (ps : list nat) :
  NoDup ps ->
  forall acc,
    (forall p, In p ps ->
               Dict.get (k1 p) acc = None /\ Dict.get (k2 p) acc = None) ->
    fold_left (step2 k1 k2 v1 v2) ps acc
    = acc ++ flat_map (fun p => [(k1 p, v1 p); (k2 p, v2 p)]) ps.
Proof.
  induction 1 as [| p ps Hp Hnd IH]; intros acc Hacc; simpl.
  - now rewrite app_nil_r.
  - destruct (Hacc p (or_introl eq_refl)) as [H1 H2].
    rewrite IH.
    + unfold step2. rewrite (length_set_new (k1 p)) by exact H1.
      rewrite length_set_new.
      * now rewrite <- !app_assoc.
      * rewrite get_app_none by exact H2. simpl.
        destruct (String.eqb_spec (k2 p) (k1 p)) as [E | _]; [| reflexivity].
        symmetry in E. now apply k12 in E.
    + intros q Hin. destruct (Hacc q (or_intror Hin)) as [Hq1 Hq2].
      assert (Hne : q <> p) by (intros ->; contradiction).
      unfold step2. split.
      * rewrite get_set_other by apply k12.
        rewrite get_set_other; [exact Hq1 |].
        intros E. now apply k1_inj in E.
      * rewrite get_set_other.
        -- rewrite get_set_other; [exact Hq2 |].
           intros E. symmetry in E. now apply k12 in E.
        -- intros E. now apply k2_inj in E.
Qed.

End FoldFresh.

Lemma stocks_keys_nodup : NoDup (Dict.keys STOCKS).
Proof.
  cbn [Dict.keys STOCKS map fst].
  repeat constructor; simpl; intuition discriminate.
Qed.

Lemma analyze_all_stocks_eq (fetch : string -> DataFrame) :
  StockAnalyzer.analyze_all_stocks fetch
  = map (fun s => (s, StockAnalyzer.analyze_stock s (fetch s)))
        (Dict.keys STOCKS).
Proof.
  unfold StockAnalyzer.analyze_all_stocks.
  rewrite (fold_set_fresh
             (fun s => StockAnalyzer.analyze_stock s (fetch s))
             (Dict.keys STOCKS) stocks_keys_nodup []); [reflexivity |].
  reflexivity.
Qed.

Lemma main_results_eq (fetch : string -> DataFrame) :
  AdvancedStockAnalyzer.main_results fetch
  = map (fun s => (s, AdvancedStockAnalyzer.analyze_stock_comprehensive
                        s (fetch s)))
        (Dict.keys STOCKS).
Proof.
  unfold AdvancedStockAnalyzer.main_results.
  rewrite (fold_set_fresh
             (fun s => AdvancedStockAnalyzer.analyze_stock_comprehensive
                         s (fetch s))
             (Dict.keys STOCKS) stocks_keys_nodup []); [reflexivity |].
  reflexivity.
Qed.

(** X1: a batch run holds one record for each tracked ticker, in the order
    of [STOCKS], whatever the supplier returns: the record of a symbol is
    the analysis of that symbol's own frame, so a failed fetch yields the
    error record for that ticker and leaves the others as they are; a
    symbol that is not tracked has no entry. *)
Theorem batch_has_one_record_per_ticker (fetch : string -> DataFrame)
        (sym : string) :
  Dict.keys (StockAnalyzer.analyze_all_stocks fetch) = Dict.keys STOCKS
  /\ Dict.keys (AdvancedStockAnalyzer.main_results fetch) = Dict.keys STOCKS
  /\ (In sym (Dict.keys STOCKS) ->
      Dict.get sym (StockAnalyzer.analyze_all_stocks fetch)
      = Some (StockAnalyzer.analyze_stock sym (fetch sym))
      /\ Dict.get sym (AdvancedStockAnalyzer.main_results fetch)
         = Some (AdvancedStockAnalyzer.analyze_stock_comprehensive
                   sym (fetch sym)))
  /\ (~ In sym (Dict.keys STOCKS) ->
      Dict.get sym (StockAnalyzer.analyze_all_stocks fetch) = None
      /\ Dict.get sym (AdvancedStockAnalyzer.main_results fetch) = None).
Proof.
  rewrite analyze_all_stocks_eq, main_results_eq.
  unfold Dict.keys at 1 3. rewrite !map_map. cbn [fst]. rewrite !map_id.
  split; [reflexivity |]. split; [reflexivity |].
  rewrite !get_map_keyed.
  destruct (in_dec string_dec sym (Dict.keys STOCKS)) as [Hin | Hnin].
  - split; [intros _; split; reflexivity | intros H; contradiction].
  - split; [intros H; contradiction | intros _; split; reflexivity].
Qed.

Lemma batch_has_one_record_per_ticker_witness :
  In "UBER"%string (Dict.keys STOCKS)
  /\ Dict.get "UBER" (StockAnalyzer.analyze_all_stocks fetch_without_uber)
     = Some (StockAnalyzer.analyze_stock "UBER" []).
Proof.
  assert (Hin : In "UBER"%string (Dict.keys STOCKS)) by (simpl; tauto).
  split; [exact Hin |].
  destruct (batch_has_one_record_per_ticker fetch_without_uber "UBER")
    as [_ [_ [H _]]].
  destruct (H Hin) as [Hs _]. exact Hs.
Defined.

(** ** The dict of moving averages *)

Lemma sa_moving_averages_eq (df : DataFrame) (periods : list nat) :
  df <> [] -> NoDup periods ->
  StockAnalyzer.calculate_moving_averages df periods
  = map (fun p => (StockAnalyzer.ma_key p, sa_ma_value df p)) periods.
Proof.
  intros Hdf Hnd. unfold StockAnalyzer.calculate_moving_averages.
  destruct df as [| b df']; [contradiction |].
  cbn [empty].
  rewrite (fold_left_agree _ (step1 StockAnalyzer.ma_key (sa_ma_value (b :: df')))).
  - rewrite (fold_step1_fresh StockAnalyzer.ma_key _ sa_ma_key_inj periods Hnd []);
      reflexivity.
  - intros a p. unfold step1, sa_ma_value, AdvancedStockAnalyzer.ma_last.
    destruct (p <=? List.length (b :: df'))%nat; reflexivity.
Qed.

Lemma adv_moving_averages_eq (df : DataFrame) (periods : list nat) :
  df <> [] -> NoDup periods ->
  AdvancedStockAnalyzer.calculate_moving_averages df periods
  = flat_map
      (fun p => [ (AdvancedStockAnalyzer.ma_key p, sa_ma_value df p);
                  (AdvancedStockAnalyzer.ma_diff_key p, adv_diff_value df p) ])
      periods.
Proof.
  intros Hdf Hnd. unfold AdvancedStockAnalyzer.calculate_moving_averages.
  destruct df as [| b df']; [contradiction |].
  cbn [empty].
  rewrite (fold_left_agree _
             (step2 AdvancedStockAnalyzer.ma_key AdvancedStockAnalyzer.ma_diff_key
                    (sa_ma_value (b :: df')) (adv_diff_value (b :: df')))).
  - rewrite (fold_step2_fresh _ _ _ _ adv_ma_key_inj adv_ma_diff_key_inj
               adv_ma_keys_apart periods Hnd []); [reflexivity |].
    intros p _. split; reflexivity.
  - intros a p. unfold step2, sa_ma_value, adv_diff_value.
    destruct (p <=? List.length (b :: df'))%nat; reflexivity.
Qed.

(** X2: for a frame that is not empty and windows that are pairwise
    distinct, [calculate_moving_averages] returns one entry per requested
    window, in the order of the request, under the key [<N>d_MA] (in
    [advanced_analyzer.py] followed by [<N>d_MA_diff_%]), and the entry of
    a window holds a number exactly when the window is not longer than the
    series; windows that are too long keep their key, with [None]. *)
Theorem moving_averages_shape (df : DataFrame) (periods : list nat) :
  df <> [] -> NoDup periods ->
  let sa := StockAnalyzer.calculate_moving_averages df periods in
  let adv := AdvancedStockAnalyzer.calculate_moving_averages df periods in
  Dict.keys sa = map StockAnalyzer.ma_key periods
  /\ map is_some (Dict.values sa)
     = map (fun p => (p <=? List.length df)%nat) periods
  /\ Dict.keys adv
     = flat_map (fun p => [ AdvancedStockAnalyzer.ma_key p;
                            AdvancedStockAnalyzer.ma_diff_key p ]) periods
  /\ map is_some (Dict.values adv)
     = flat_map (fun p => [ (p <=? List.length df)%nat;
                            (p <=? List.length df)%nat ]) periods.
Proof.
  intros Hdf Hnd sa adv. subst sa adv.
  rewrite (sa_moving_averages_eq df periods Hdf Hnd).
  rewrite (adv_moving_averages_eq df periods Hdf Hnd).
  unfold Dict.keys, Dict.values. rewrite !map_map. cbn [fst snd].
  split; [reflexivity |].
  split.
  { apply map_ext. intros p. unfold sa_ma_value.
    destruct (p <=? List.length df)%nat; reflexivity. }
  split.
  { clear. induction periods as [| p ps IH]; [reflexivity |].
    cbn [flat_map map app fst]. now rewrite IH. }
  clear. induction periods as [| p ps IH]; [reflexivity |].
  cbn [flat_map map app snd]. rewrite IH.
  unfold sa_ma_value, adv_diff_value.
  destruct (p <=? List.length df)%nat; reflexivity.
Qed.

Lemma ma_periods_nodup : NoDup ma_periods.
Proof. unfold ma_periods. repeat constructor; simpl; lia. Qed.

Lemma moving_averages_shape_witness :
  Dict.keys (StockAnalyzer.calculate_moving_averages (rising_frame 40)
                                                     ma_periods)
  = ["15d_MA"; "30d_MA"; "50d_MA"; "100d_MA"; "200d_MA"]%string.
Proof.
  assert (Hdf : rising_frame 40 <> []) by discriminate.
  destruct (moving_averages_shape (rising_frame 40) ma_periods Hdf
                                  ma_periods_nodup) as [Hk _].
  exact Hk.
Defined.

(** ** The moving average and its window *)

Lemma fold_Qplus_bounds (lo hi : Q) (l : list Q) :
  Forall (fun c => lo <= c <= hi) l ->
  forall a,
    a + inject_Z (Z.of_nat (List.length l)) * lo <= fold_left Qplus l a
    /\ fold_left Qplus l a <= a + inject_Z (Z.of_nat (List.length l)) * hi.
Proof.
  induction 1 as [| c l [Hlo Hhi] _ IH]; intros a.
  - simpl. split; ring_simplify; apply Qle_refl.
  - cbn [fold_left List.length]. destruct (IH (a + c)) as [H1 H2].
    rewrite Nat2Z.inj_succ. unfold Z.succ. rewrite inject_Z_plus.
    split.
    + eapply Qle_trans; [| exact H1].
      ring_simplify. lra.
    + eapply Qle_trans; [exact H2 |].
      ring_simplify. lra.
Qed.

Lemma Qmean_bounds (lo hi : Q) (l : list Q) :
  l <> [] -> Forall (fun c => lo <= c <= hi) l ->
  lo <= Qmean l <= hi.
Proof.
  intros Hl Hall.
  assert (Hn : 0 < inject_Z (Z.of_nat (List.length l))).
  { apply Qnat_pos. destruct l; [contradiction | simpl; lia]. }
  destruct (fold_Qplus_bounds lo hi l Hall 0) as [H1 H2].
  unfold Qmean, Qsum. split.
  - apply Qle_shift_div_l; [exact Hn |]. lra.
  - apply Qle_shift_div_r; [exact Hn |]. lra.
Qed.

(** X3: a moving average lies between the lowest and the highest close of
    its window: when the last N closes all lie in [lo, hi], the stored
    N-day average, the same number in both analyzers, lies between [lo]
    and [hi] rounded to two decimals; on a window of equal closes it is
    that close, rounded. *)
Theorem moving_average_within_window (df : DataFrame) (periods : list nat)
        (n : nat) (lo hi : Q) :
  In n periods -> (1 <= n)%nat -> (n <= List.length df)%nat ->
  Forall (fun c => lo <= c <= hi) (tail_n n (map Close df)) ->
  exists q,
    Dict.get (StockAnalyzer.ma_key n)
             (StockAnalyzer.calculate_moving_averages df periods)
    = Some (Some (Fin q))
    /\ Dict.get (AdvancedStockAnalyzer.ma_key n)
                (AdvancedStockAnalyzer.calculate_moving_averages df periods)
       = Some (Some (Fin q))
    /\ Qround_nd 2 lo <= q <= Qround_nd 2 hi
    /\ (lo == hi -> q == Qround_nd 2 lo).
Proof.
  intros Hin Hn Hlen Hall.
  assert (Hdf : df <> []) by (destruct df; simpl in *; [lia | discriminate]).
  destruct (adv_moving_averages_get df periods n Hdf Hin) as [Ha _].
  rewrite (sa_moving_averages_get df periods n Hdf Hin), Ha.
  unfold sa_ma_value.
  destruct (Nat.leb_spec n (List.length df)); [| lia].
  rewrite ma_last_fin by assumption. cbn [round].
  eexists. split; [reflexivity |]. split; [reflexivity |].
  assert (Hne : tail_n n (map Close df) <> []).
  { intros E. apply (f_equal (@List.length Q)) in E.
    rewrite length_tail_n in E by (rewrite length_map; lia).
    simpl in E. lia. }
  destruct (Qmean_bounds lo hi _ Hne Hall) as [H1 H2].
  assert (Hb : Qround_nd 2 lo <= Qround_nd 2 (Qmean (tail_n n (map Close df)))
               <= Qround_nd 2 hi)
    by (split; apply Qround_nd_mono; assumption).
  split; [exact Hb |].
  intros E. apply Qle_antisym; [| apply Hb].
  eapply Qle_trans; [apply Hb |].
  apply Qround_nd_mono. rewrite E. apply Qle_refl.
Qed.

Lemma moving_average_within_window_witness :
  exists q,
    Dict.get (StockAnalyzer.ma_key 15)
      (StockAnalyzer.calculate_moving_averages flat_frame ma_periods)
    = Some (Some (Fin q))
    /\ q == 100.
Proof.
  assert (Hin : In 15%nat ma_periods) by (simpl; tauto).
  assert (Hn : (1 <= 15)%nat) by lia.
  assert (Hl : (15 <= List.length flat_frame)%nat) by (vm_compute; lia).
  assert (Hall : Forall (fun c => 100 <= c <= 100)
                        (tail_n 15 (map Close flat_frame))).
  { vm_compute. repeat constructor; discriminate. }
  destruct (moving_average_within_window flat_frame ma_periods 15 100 100
              Hin Hn Hl Hall) as [q [Hq [_ [_ Heq]]]].
  exists q. split; [exact Hq |].
  rewrite Heq by reflexivity. reflexivity.
Defined.

(** ** The record of [analyze_stock] *)

Lemma change_over_defined (df : DataFrame) (stats : CurrentStats) (days : nat) :
  (1 <= days)%nat ->
  is_some (StockAnalyzer.change_over df stats days)
  = (days <=? List.length df)%nat.
Proof.
  intros Hd. unfold StockAnalyzer.change_over.
  destruct (Nat.leb_spec days (List.length df)) as [Hle | _]; [| reflexivity].
  now rewrite iloc_neg_col.
Qed.

(** X4: [analyze_stock] returns the bare error record for an empty frame;
    for any other frame the record has no error entry and its price
    changes hold exactly the 15-day and the 30-day key, the first with a
    number from 15 bars on and the second from 30 bars on, [None] before;
    so a record of the analyzer never has a 30-day change without a 15-day
    change. *)
Theorem analyze_stock_changes (sym : string) (df : DataFrame) :
  (df = [] -> StockAnalyzer.analyze_stock sym df = error_record)
  /\ (df <> [] ->
      exists c15 c30,
        price_changes (StockAnalyzer.analyze_stock sym df)
        = Some [ ("15_day_change_%"%string, c15);
                 ("30_day_change_%"%string, c30) ]
        /\ error (StockAnalyzer.analyze_stock sym df) = None
        /\ name (StockAnalyzer.analyze_stock sym df) = Some (stock_name sym)
        /\ is_some c15 = (15 <=? List.length df)%nat
        /\ is_some c30 = (30 <=? List.length df)%nat
        /\ (is_some c30 = true -> is_some c15 = true)).
Proof.
  split.
  - intros ->. reflexivity.
  - intros Hdf. destruct df as [| b df']; [contradiction |].
    unfold StockAnalyzer.analyze_stock.
    cbn [StockAnalyzer.get_current_stats price_changes error name].
    eexists. eexists. split; [reflexivity |].
    split; [reflexivity |]. split; [reflexivity |].
    rewrite !change_over_defined by lia.
    split; [reflexivity |]. split; [reflexivity |].
    intros H. apply Nat.leb_le in H. apply Nat.leb_le. lia.
Qed.

Lemma analyze_stock_changes_witness :
  exists c15 c30,
    price_changes (StockAnalyzer.analyze_stock "AAPL" (rising_frame 20))
    = Some [ ("15_day_change_%"%string, c15);
             ("30_day_change_%"%string, c30) ]
    /\ is_some c15 = true /\ is_some c30 = false.
Proof.
  assert (Hdf : rising_frame 20 <> []) by discriminate.
  destruct (analyze_stock_changes "AAPL" (rising_frame 20)) as [_ H].
  destruct (H Hdf) as [c15 [c30 [Hp [_ [_ [H15 [H30 _]]]]]]].
  exists c15, c30. split; [exact Hp |].
  split; [rewrite H15 | rewrite H30]; reflexivity.
Defined.





(** ** The other technical indicators *)

Lemma technical_indicators_short (df : DataFrame) :
  (List.length df < 20)%nat ->
  AdvancedStockAnalyzer.calculate_technical_indicators df = [].
Proof.
  intros H. unfold AdvancedStockAnalyzer.calculate_technical_indicators.
  destruct (Nat.ltb_spec (List.length df) 20) as [_ | ?]; [| lia].
  now rewrite orb_true_r.
Qed.

Lemma technical_indicators_long (df : DataFrame) :
  (20 <= List.length df)%nat ->
  AdvancedStockAnalyzer.calculate_technical_indicators df
  = let base :=
      Dict.set "avg_volume_30d"
        (match fmean (tail_n 30 (col Volume df)) with
         | Fin q => Fin (inject_Z (Qtrunc q))
         | x => x
         end)
        (Dict.set "RSI_14"
           (round (iloc_last (AdvancedStockAnalyzer.rsi df)) 2) []) in
    if (252 <=? List.length df)%nat then
      Dict.set "52w_low" (round (smin (tail_n 252 (col Close df))) 2)
        (Dict.set "52w_high" (round (smax (tail_n 252 (col Close df))) 2)
           base)
    else base.
Proof.
  intros H. unfold AdvancedStockAnalyzer.calculate_technical_indicators.
  destruct df as [| b df']; [simpl in H; lia |].
  cbn [empty orb].
  destruct (Nat.ltb_spec (List.length (b :: df')) 20) as [? | _]; [lia |].
  destruct (Nat.leb_spec 14 (List.length (b :: df'))) as [_ | ?]; [| lia].
  reflexivity.
Qed.

Lemma fold_fmax_fin (l : list Q) : forall a,
  exists m, fold_left fmax (map Fin l) (Fin a) = Fin m
            /\ In m (a :: l) /\ Forall (fun c => c <= m) (a :: l).
Proof.
  induction l as [| b l IH]; intros a.
  - exists a. simpl. repeat split; auto. constructor; [lra | constructor].
  - cbn [map fold_left]. unfold fmax at 2, fltb.
    destruct (Qcompare_cases a b) as [[E H] | [[E H] | [E H]]]; rewrite E.
    + destruct (IH b) as [m [Hm [Hin Hall]]]. exists m.
      split; [exact Hm |]. split; [now right |].
      inversion Hall; subst. constructor; [lra | assumption].
    + destruct (IH a) as [m [Hm [Hin Hall]]]. exists m.
      split; [exact Hm |]. inversion Hall; subst. split.
      * destruct Hin as [<- | Hin]; [now left | right; now right].
      * constructor; [assumption |]. constructor; [lra | assumption].
    + destruct (IH a) as [m [Hm [Hin Hall]]]. exists m.
      split; [exact Hm |]. inversion Hall; subst. split.
      * destruct Hin as [<- | Hin]; [now left | right; now right].
      * constructor; [assumption |]. constructor; [lra | assumption].
Qed.

Lemma fold_fmin_fin (l : list Q) : forall a,
  exists m, fold_left fmin (map Fin l) (Fin a) = Fin m
            /\ In m (a :: l) /\ Forall (fun c => m <= c) (a :: l).
Proof.
  induction l as [| b l IH]; intros a.
  - exists a. simpl. repeat split; auto. constructor; [lra | constructor].
  - cbn [map fold_left]. unfold fmin at 2, fltb.
    destruct (Qcompare_cases b a) as [[E H] | [[E H] | [E H]]]; rewrite E.
    + destruct (IH b) as [m [Hm [Hin Hall]]]. exists m.
      split; [exact Hm |]. split; [now right |].
      inversion Hall; subst. constructor; [lra | assumption].
    + destruct (IH a) as [m [Hm [Hin Hall]]]. exists m.
      split; [exact Hm |]. inversion Hall; subst. split.
      * destruct Hin as [<- | Hin]; [now left | right; now right].
      * constructor; [assumption |]. constructor; [lra | assumption].
    + destruct (IH a) as [m [Hm [Hin Hall]]]. exists m.
      split; [exact Hm |]. inversion Hall; subst. split.
      * destruct Hin as [<- | Hin]; [now left | right; now right].
      * constructor; [assumption |]. constructor; [lra | assumption].
Qed.

Lemma smax_fin (l : list Q) :
  l <> [] ->
  exists m, smax (map Fin l) = Fin m /\ In m l /\ Forall (fun c => c <= m) l.
Proof.
  destruct l as [| a l]; [contradiction |]. intros _. apply fold_fmax_fin.
Qed.

Lemma smin_fin (l : list Q) :
  l <> [] ->
  exists m, smin (map Fin l) = Fin m /\ In m l /\ Forall (fun c => m <= c) l.
Proof.
  destruct l as [| a l]; [contradiction |]. intros _. apply fold_fmin_fin.
Qed.

(** X6: the 52-week range is stored only from 252 bars on, never from a
    shorter window; when stored, both bounds are the two-decimal roundings
    of closes among the last 252, the low is not above the high, and every
    close of those 252 bars, rounded, lies between them. *)
Theorem week52_range (df : DataFrame) :
  let tech := AdvancedStockAnalyzer.calculate_technical_indicators df in
  let window := tail_n 252 (map Close df) in
  ((List.length df < 252)%nat ->
   Dict.get "52w_high" tech = None /\ Dict.get "52w_low" tech = None)
  /\ ((252 <= List.length df)%nat ->
      exists lo hi,
        Dict.get "52w_high" tech = Some (Fin (Qround_nd 2 hi))
        /\ Dict.get "52w_low" tech = Some (Fin (Qround_nd 2 lo))
        /\ In hi window /\ In lo window
        /\ Qround_nd 2 lo <= Qround_nd 2 hi
        /\ (forall c, In c window ->
                      Qround_nd 2 lo <= Qround_nd 2 c <= Qround_nd 2 hi)).
Proof.
  intros tech window. subst tech. split.
  - intros H. destruct (Nat.lt_ge_cases (List.length df) 20) as [Hs | Hl].
    + rewrite technical_indicators_short by exact Hs. split; reflexivity.
    + rewrite technical_indicators_long by exact Hl. cbv zeta.
      destruct (Nat.leb_spec 252 (List.length df)); [lia |].
      split; reflexivity.
  - intros H. rewrite technical_indicators_long by lia. cbv zeta.
    destruct (Nat.leb_spec 252 (List.length df)); [| lia].
    rewrite col_as_map, tail_n_map. fold window.
    assert (Hne : window <> []).
    { intros E. apply (f_equal (@List.length Q)) in E. unfold window in E.
      rewrite length_tail_n in E by (rewrite length_map; lia).
      simpl in E. lia. }
    destruct (smax_fin window Hne) as [hi [Hhi [Hinh Hallh]]].
    destruct (smin_fin window Hne) as [lo [Hlo [Hinl Halll]]].
    rewrite Hhi, Hlo. cbn [round].
    exists lo, hi.
    split; [rewrite get_set_other by discriminate; apply get_set_same |].
    split; [apply get_set_same |].
    split; [exact Hinh |]. split; [exact Hinl |].
    rewrite Forall_forall in Hallh, Halll.
    split.
    + apply Qround_nd_mono. now apply Hallh.
    + intros c Hc. split; apply Qround_nd_mono; [now apply Halll | now apply Hallh].
Qed.

Lemma week52_range_witness :
  exists lo hi,
    Dict.get "52w_high"
      (AdvancedStockAnalyzer.calculate_technical_indicators (rising_frame 252))
    = Some (Fin (Qround_nd 2 hi))
    /\ Dict.get "52w_low"
         (AdvancedStockAnalyzer.calculate_technical_indicators
            (rising_frame 252))
       = Some (Fin (Qround_nd 2 lo))
    /\ Qround_nd 2 lo <= Qround_nd 2 hi.
Proof.
  assert (Hl : (252 <= List.length (rising_frame 252))%nat).
  { unfold rising_frame, bars. rewrite !length_map, length_seq. lia. }
  destruct (week52_range (rising_frame 252)) as [_ H].
  destruct (H Hl) as [lo [hi [Hh [Hlo [_ [_ [Hle _]]]]]]].
  exists lo, hi. repeat split; assumption.
Defined.

Lemma fmean_fin (l : list Q) :
  l <> [] -> fmean (map Fin l) = Fin (Qmean l).
Proof.
  intros Hl. unfold fmean. rewrite fsum_fin, length_map.
  unfold of_nat, fdiv, Qmean.
  rewrite Qeq_bool_false; [reflexivity |].
  assert (0 < inject_Z (Z.of_nat (List.length l))).
  { apply Qnat_pos. destruct l; [contradiction | simpl; lia]. }
  lra.
Qed.

Lemma tail_n_nonempty {A : Type} (n : nat) (l : list A) :
  (1 <= n)%nat -> l <> [] -> tail_n n l <> [].
Proof.
  intros Hn Hl E. apply (f_equal (@List.length A)) in E.
  unfold tail_n in E. rewrite length_skipn in E.
  destruct l; [contradiction | cbn [List.length] in E; lia].
Qed.

(** X7: the 30-day average volume is stored from 20 bars on (over all
    bars while there are fewer than 30) and not before; for volumes that
    are not negative it is the whole number [z] with
    [z <= mean < z + 1], the mean of the last 30 volumes cut to an
    integer. *)
Theorem average_volume_truncated (df : DataFrame) :
  let tech := AdvancedStockAnalyzer.calculate_technical_indicators df in
  ((List.length df < 20)%nat -> Dict.get "avg_volume_30d" tech = None)
  /\ ((20 <= List.length df)%nat ->
      Forall (fun b => 0 <= Volume b) df ->
      exists z,
        Dict.get "avg_volume_30d" tech = Some (Fin (inject_Z z))
        /\ (0 <= z)%Z
        /\ inject_Z z <= Qmean (tail_n 30 (map Volume df))
        /\ Qmean (tail_n 30 (map Volume df)) < inject_Z z + 1).
Proof.
  intros tech. subst tech. split.
  - intros H. now rewrite technical_indicators_short.
  - intros H Hv. rewrite technical_indicators_long by exact H. cbv zeta.
    assert (Hne : tail_n 30 (map Volume df) <> []).
    { apply tail_n_nonempty; [lia |].
      destruct df; [simpl in H; lia | discriminate]. }
    rewrite (col_as_map Volume), (tail_n_map Fin 30 (map Volume df)),
      (fmean_fin _ Hne).
    set (m := Qmean (tail_n 30 (map Volume df))).
    assert (Hm : 0 <= m).
    { apply Qmean_nonneg, Forall_tail_n.
      apply (Forall_map_intro (fun b => 0 <= Volume b)); auto. }
    exists (Qfloor m).
    assert (Ht : Qtrunc m = Qfloor m).
    { unfold Qtrunc. apply Qle_bool_iff in Hm. now rewrite Hm. }
    rewrite Ht.
    split.
    { destruct (252 <=? List.length df)%nat;
        repeat (rewrite get_set_other by discriminate); apply get_set_same. }
    split.
    { change 0%Z with (Qfloor 0). now apply Qfloor_resp_le. }
    split; [apply Qfloor_le |].
    pose proof (Qlt_floor m) as Hlt. rewrite inject_Z_plus in Hlt. exact Hlt.
Qed.

Lemma average_volume_truncated_witness :
  exists z,
    Dict.get "avg_volume_30d"
      (AdvancedStockAnalyzer.calculate_technical_indicators flat_frame)
    = Some (Fin (inject_Z z))
    /\ (0 <= z)%Z.
Proof.
  assert (Hl : (20 <= List.length flat_frame)%nat) by (vm_compute; lia).
  assert (Hv : Forall (fun b => 0 <= Volume b) flat_frame).
  { vm_compute. repeat constructor; discriminate. }
  destruct (average_volume_truncated flat_frame) as [_ H].
  destruct (H Hl Hv) as [z [Hz [Hp _]]].
  exists z. split; assumption.
Defined.

(** ** Momentum and trend on any loaded data *)



Lemma length_filter_le {A : Type} (f : A -> bool) (l : list A) :
  (List.length (filter f l) <= List.length l)%nat.
Proof.
  induction l as [| x l IH]; simpl; [lia |].
  destruct (f x); simpl; lia.
Qed.

(** The result of [analyze_trend_strength] in terms of its two counts. *)
Lemma trend_fields (data : StockComparator.Data) (sym : string)
      (t : StockComparator.Trend) :
  StockComparator.analyze_trend_strength data sym = Some t ->
  exists a tot,
    (a <= tot)%nat
    /\ t = StockComparator.mkTrend
             (StockComparator.trend_label (StockComparator.trend_strength a tot))
             (Qround_nd 1 (StockComparator.trend_strength a tot)) a tot.
Proof.
  unfold StockComparator.analyze_trend_strength.
  destruct (Dict.get sym data) as [stock |]; [| discriminate].
  destruct (current_stats stock) as [stats |]; [| discriminate].
  destruct (moving_averages stock) as [ma |]; [| discriminate].
  intros H. injection H as <-.
  eexists. eexists. split; [| reflexivity].
  unfold Dict.values.
  eapply Nat.le_trans; [apply length_filter_le |].
  now rewrite length_map.
Qed.

Lemma trend_strength_range (a tot : nat) :
  (a <= tot)%nat ->
  0 <= StockComparator.trend_strength a tot <= 100.
Proof.
  intros H. unfold StockComparator.trend_strength.
  destruct (Nat.ltb_spec 0 tot) as [Hpos | _]; [| split; discriminate].
  pose proof (Qnat_pos tot Hpos) as Ht. unfold StockComparator.Qnat.
  assert (Ha : 0 <= inject_Z (Z.of_nat a)).
  { change 0 with (inject_Z 0). rewrite <- Zle_Qle. lia. }
  assert (Hat : inject_Z (Z.of_nat a) <= inject_Z (Z.of_nat tot)).
  { rewrite <- Zle_Qle. lia. }
  assert (Hq : 0 <= inject_Z (Z.of_nat a) / inject_Z (Z.of_nat tot) <= 1).
  { split.
    - apply Qle_shift_div_l; [exact Ht | lra].
    - apply Qle_shift_div_r; [exact Ht | lra]. }
  split; lra.
Qed.

Lemma trend_strength_mono (a a' tot : nat) :
  (a <= a')%nat ->
  StockComparator.trend_strength a tot <= StockComparator.trend_strength a' tot.
Proof.
  intros H. unfold StockComparator.trend_strength.
  destruct (Nat.ltb_spec 0 tot) as [Hpos | _]; [| apply Qle_refl].
  pose proof (Qnat_pos tot Hpos) as Ht. unfold StockComparator.Qnat.
  assert (Haa : inject_Z (Z.of_nat a) <= inject_Z (Z.of_nat a')).
  { rewrite <- Zle_Qle. lia. }
  apply Qmult_le_compat_r; [| discriminate].
  apply Qmult_le_compat_r; [exact Haa |].
  apply Qlt_le_weak, Qinv_lt_0_compat, Ht.
Qed.

Lemma Qround_1_Z (z : Z) : Qround_nd 1 (inject_Z z) == inject_Z z.
Proof. apply Qround_nd_Z. Qed.

(** X9: whatever the loaded record holds, a trend assessment counts no
    more averages above the price than it counts in total, and its
    strength score lies between 0 and 100; without any counted average
    the score is 0 and the label Strong Bearish, and with all counted
    averages below the price the score is 100 and the label Strong
    Bullish. *)
Theorem trend_strength_bounds (data : StockComparator.Data) (sym : string)
        (t : StockComparator.Trend) :
  StockComparator.analyze_trend_strength data sym = Some t ->
  (StockComparator.above_mas t <= StockComparator.total_mas t)%nat
  /\ 0 <= StockComparator.strength_score t <= 100
  /\ (StockComparator.total_mas t = 0%nat ->
      StockComparator.strength_score t == 0
      /\ StockComparator.trend t = "Strong Bearish"%string)
  /\ ((0 < StockComparator.total_mas t)%nat ->
      StockComparator.above_mas t = StockComparator.total_mas t ->
      StockComparator.strength_score t == 100
      /\ StockComparator.trend t = "Strong Bullish"%string).
Proof.
  intros H. destruct (trend_fields data sym t H) as [a [tot [Hle ->]]].
  cbn [StockComparator.above_mas StockComparator.total_mas
       StockComparator.strength_score StockComparator.trend].
  destruct (trend_strength_range a tot Hle) as [H0 H100].
  split; [exact Hle |].
  split.
  { split.
    - apply Qle_trans with (Qround_nd 1 (inject_Z 0));
        [rewrite Qround_1_Z; discriminate | now apply Qround_nd_mono].
    - apply Qle_trans with (Qround_nd 1 (inject_Z 100));
        [now apply Qround_nd_mono | rewrite Qround_1_Z; discriminate]. }
  split.
  - intros ->. split; reflexivity.
  - intros Hpos ->. unfold StockComparator.trend_strength.
    destruct (Nat.ltb_spec 0 tot) as [_ | ?]; [| lia].
    pose proof (Qnat_pos tot Hpos) as Ht.
    assert (E : StockComparator.Qnat tot / StockComparator.Qnat tot * 100
                == inject_Z 100).
    { unfold StockComparator.Qnat. field. lra. }
    split.
    + rewrite (Qround_nd_compat 1 _ _ E). apply Qround_1_Z.
    + destruct (trend_label_cases
                  (StockComparator.Qnat tot / StockComparator.Qnat tot * 100))
        as [H80 _].
      apply H80. rewrite E. discriminate.
Qed.

Lemma trend_strength_bounds_witness :
  exists t,
    StockComparator.analyze_trend_strength three_ma_data "UBER" = Some t
    /\ 0 <= StockComparator.strength_score t <= 100.
Proof.
  eexists. split; [reflexivity |].
  apply (trend_strength_bounds three_ma_data "UBER"). reflexivity.
Defined.

(** X10: of two trend assessments that count the same number of averages,
    the one with more averages below the price has the score that is not
    lower. *)
Theorem strength_score_monotone (data data' : StockComparator.Data)
        (sym sym' : string) (t t' : StockComparator.Trend) :
  StockComparator.analyze_trend_strength data sym = Some t ->
  StockComparator.analyze_trend_strength data' sym' = Some t' ->
  StockComparator.total_mas t = StockComparator.total_mas t' ->
  (StockComparator.above_mas t <= StockComparator.above_mas t')%nat ->
  StockComparator.strength_score t <= StockComparator.strength_score t'.
Proof.
  intros H H' Htot Hab.
  destruct (trend_fields data sym t H) as [a [tot [_ ->]]].
  destruct (trend_fields data' sym' t' H') as [a' [tot' [_ ->]]].
  cbn [StockComparator.above_mas StockComparator.total_mas
       StockComparator.strength_score] in *.
  subst tot'. apply Qround_nd_mono. now apply trend_strength_mono.
Qed.

Lemma strength_score_monotone_witness :
  exists t t',
    StockComparator.analyze_trend_strength three_ma_data "UBER" = Some t
    /\ StockComparator.analyze_trend_strength three_ma_data_up "UBER" = Some t'
    /\ StockComparator.strength_score t <= StockComparator.strength_score t'.
Proof.
  eexists. eexists. split; [reflexivity |]. split; [reflexivity |].
  apply (strength_score_monotone three_ma_data three_ma_data_up "UBER" "UBER");
    [reflexivity | reflexivity | reflexivity | vm_compute; lia].
Defined.

(** ** The cohorts and the extremes of the report *)

Lemma trend_label_strong_bullish (s : Q) :
  StockComparator.trend_label s = "Strong Bullish"%string -> 80 <= s.
Proof.
  unfold StockComparator.trend_label.
  destruct (Qle_bool 80 s) eqn:E; [intros _; now apply Qle_bool_iff |].
  destruct (Qle_bool 60 s); [discriminate |].
  destruct (Qle_bool 40 s); [discriminate |].
  destruct (Qle_bool 20 s); discriminate.
Qed.

Lemma Qle_bool_false (a b : Q) : Qle_bool a b = false -> b < a.
Proof.
  intros H. destruct (Qlt_le_dec b a) as [? | Hle]; [assumption |].
  apply Qle_bool_iff in Hle. congruence.
Qed.

(** ** From the analyzer to the comparator *)

Lemma prefix_refl (s : string) : String.prefix s s = true.
Proof. induction s as [| c s IH]; simpl; [reflexivity |].
       destruct (ascii_dec c c); [exact IH | contradiction]. Qed.

Lemma contains_suffix (sub s : string) : contains sub (s ++ sub) = true.
Proof.
  induction s as [| c s IH].
  - simpl. destruct sub as [| c sub]; [reflexivity |].
    cbn [contains]. now rewrite prefix_refl.
  - cbn [append contains].
    destruct (String.prefix sub (String c (s ++ sub))); [reflexivity | exact IH].
Qed.

Lemma fold_Qplus_lower (lo : Q) (l : list Q) :
  Forall (fun c => lo <= c) l ->
  forall a,
    a + inject_Z (Z.of_nat (List.length l)) * lo <= fold_left Qplus l a.
Proof.
  induction 1 as [| c l Hlo _ IH]; intros a.
  - simpl. ring_simplify. apply Qle_refl.
  - cbn [fold_left List.length].
    rewrite Nat2Z.inj_succ. unfold Z.succ. rewrite inject_Z_plus.
    eapply Qle_trans; [| apply (IH (a + c))].
    ring_simplify. lra.
Qed.

Lemma Qmean_lower (lo : Q) (l : list Q) :
  l <> [] -> Forall (fun c => lo <= c) l -> lo <= Qmean l.
Proof.
  intros Hl Hall.
  assert (Hn : 0 < inject_Z (Z.of_nat (List.length l))).
  { apply Qnat_pos. destruct l; [contradiction | simpl; lia]. }
  pose proof (fold_Qplus_lower lo l Hall 0) as H1.
  unfold Qmean, Qsum. apply Qle_shift_div_l; [exact Hn |]. lra.
Qed.

(** A stored average of closes of at least one cent is not zero. *)
Lemma sa_ma_value_truthy (df : DataFrame) (p : nat) :
  (1 <= p)%nat -> (p <= List.length df)%nat ->
  Forall (fun b => (1 # 100) <= Close b) df ->
  exists q, sa_ma_value df p = Some (Fin q) /\ truthy (Fin q) = true.
Proof.
  intros Hp Hl Hc. unfold sa_ma_value.
  destruct (Nat.leb_spec p (List.length df)); [| lia].
  rewrite ma_last_fin by assumption. cbn [round].
  eexists. split; [reflexivity |].
  assert (Hne : tail_n p (map Close df) <> []).
  { apply tail_n_nonempty; [exact Hp |].
    destruct df; [simpl in Hl; lia | discriminate]. }
  assert (Hm : (1 # 100) <= Qmean (tail_n p (map Close df))).
  { apply Qmean_lower; [exact Hne |]. apply Forall_tail_n.
    apply (Forall_map_intro (fun b => (1 # 100) <= Close b)); auto. }
  assert (Hr : (1 # 100) <= Qround_nd 2 (Qmean (tail_n p (map Close df)))).
  { apply Qle_trans with (Qround_nd 2 (1 # 100)); [discriminate |].
    now apply Qround_nd_mono. }
  cbn [truthy]. rewrite Qeq_bool_false; [reflexivity |]. lra.
Qed.

Lemma participants_of_averages (df : DataFrame) (ps : list nat) :
  Forall (fun p => (1 <= p)%nat) ps ->
  Forall (fun b => (1 # 100) <= Close b) df ->
  List.length
    (participants
       (map (fun p => (StockAnalyzer.ma_key p, sa_ma_value df p)) ps))
  = List.length (filter (fun p => (p <=? List.length df)%nat) ps).
Proof.
  intros Hps Hc. induction Hps as [| p ps Hp _ IH]; [reflexivity |].
  unfold participants in *. cbn [map flat_map fst snd filter].
  rewrite length_app, IH.
  destruct (Nat.leb_spec p (List.length df)) as [Hle | Hgt].
  - destruct (sa_ma_value_truthy df p Hp Hle Hc) as [q [-> Ht]].
    rewrite Ht. unfold StockAnalyzer.ma_key. rewrite contains_suffix.
    reflexivity.
  - unfold sa_ma_value.
    destruct (Nat.leb_spec p (List.length df)); [lia | reflexivity].
Qed.

(** X13: on a record that [analyze_stock] made from a frame with closes
    of at least one cent, the trend assessment counts exactly the windows
    of 15, 30, 50, 100 and 200 bars that are not longer than the series:
    all five from 200 bars on, none below 15 bars, where the assessment is
    a score of 0 and Strong Bearish. *)
Theorem trend_counts_available_averages (data : StockComparator.Data)
        (sym name_sym : string) (df : DataFrame) :
  Dict.get sym data = Some (StockAnalyzer.analyze_stock name_sym df) ->
  df <> [] ->
  Forall (fun b => (1 # 100) <= Close b) df ->
  exists t,
    StockComparator.analyze_trend_strength data sym = Some t
    /\ StockComparator.total_mas t
       = List.length (filter (fun p => (p <=? List.length df)%nat) ma_periods)
    /\ ((200 <= List.length df)%nat -> StockComparator.total_mas t = 5%nat)
    /\ ((List.length df < 15)%nat ->
        StockComparator.total_mas t = 0%nat
        /\ StockComparator.trend t = "Strong Bearish"%string).
Proof.
  intros Hd Hdf Hc.
  unfold StockComparator.analyze_trend_strength. rewrite Hd.
  destruct df as [| b df']; [contradiction |].
  unfold StockAnalyzer.analyze_stock.
  cbn [StockAnalyzer.get_current_stats current_stats moving_averages].
  fold ma_periods.
  rewrite (sa_moving_averages_eq (b :: df') ma_periods Hdf ma_periods_nodup).
  rewrite above_below_participants.
  2:{ unfold Dict.keys. rewrite map_map. cbn [fst].
      vm_compute. repeat constructor; simpl; intuition discriminate. }
  eexists. split; [reflexivity |].
  cbn [StockComparator.total_mas StockComparator.trend].
  rewrite length_map.
  assert (Hps : Forall (fun p => (1 <= p)%nat) ma_periods)
    by (unfold ma_periods; repeat constructor; lia).
  rewrite (participants_of_averages (b :: df') ma_periods Hps Hc).
  split; [reflexivity |].
  split.
  - intros H. unfold ma_periods. cbn [filter].
    repeat match goal with
           | |- context [(?p <=? ?n)%nat] =>
               destruct (Nat.leb_spec p n); [| lia]
           end.
    reflexivity.
  - intros H. unfold ma_periods. cbn [filter].
    repeat match goal with
           | |- context [(?p <=? ?n)%nat] =>
               destruct (Nat.leb_spec p n); [lia |]
           end.
    split; reflexivity.
Qed.

Lemma trend_counts_available_averages_witness :
  exists t,
    StockComparator.analyze_trend_strength
      [("AAPL"%string, StockAnalyzer.analyze_stock "AAPL" (rising_frame 40))]
      "AAPL" = Some t
    /\ StockComparator.total_mas t = 2%nat.
Proof.
  assert (Hdf : rising_frame 40 <> []) by discriminate.
  assert (Hc : Forall (fun b => (1 # 100) <= Close b) (rising_frame 40)).
  { vm_compute. repeat constructor; discriminate. }
  destruct (trend_counts_available_averages
              [("AAPL"%string,
                StockAnalyzer.analyze_stock "AAPL" (rising_frame 40))]
              "AAPL" "AAPL" (rising_frame 40) eq_refl Hdf Hc)
    as [t [Ht [Htot _]]].
  exists t. split; [exact Ht |]. rewrite Htot. reflexivity.
Defined.

(** ** The portfolio summary *)

Lemma summary_row_ready (sym : string) (stock : Analysis) :
  is_some (Summary.summary_row sym stock) = summary_ready stock.
Proof.
  unfold Summary.summary_row, summary_ready, defined_entry.
  destruct (name stock) as [nm |]; [| reflexivity].
  destruct (current_stats stock) as [st |]; [| reflexivity].
  destruct (price_changes stock) as [changes |]; [| reflexivity].
  destruct (Dict.get "30_day_change_%" changes) as [[c |] |];
    try reflexivity.
  destruct (moving_averages stock) as [ma |]; [| reflexivity].
  destruct (Dict.get "30d_MA" ma) as [[m |] |]; reflexivity.
Qed.

Lemma summary_row_symbol (sym : string) (stock : Analysis) (row : Summary.Row) :
  Summary.summary_row sym stock = Some row -> Summary.row_symbol row = sym.
Proof.
  unfold Summary.summary_row.
  destruct (name stock) as [nm |]; [| discriminate].
  destruct (current_stats stock) as [st |]; [| discriminate].
  destruct (price_changes stock) as [changes |]; [| discriminate].
  destruct (Dict.get "30_day_change_%" changes) as [[c |] |];
    try discriminate.
  destruct (moving_averages stock) as [ma |]; [| discriminate].
  destruct (Dict.get "30d_MA" ma) as [[m |] |]; try discriminate.
  intros H. injection H as <-. reflexivity.
Qed.

Lemma summary_rows_some (data : Dict.dict Analysis) :
  is_some (Summary.summary_rows data)
  = forallb (fun item => summary_ready (snd item)) data.
Proof.
  induction data as [| [sym stock] data IH]; [reflexivity |].
  cbn [Summary.summary_rows forallb snd].
  rewrite <- (summary_row_ready sym stock), <- IH.
  destruct (Summary.summary_row sym stock); [| reflexivity].
  destruct (Summary.summary_rows data); reflexivity.
Qed.

Lemma summary_rows_symbols (data : Dict.dict Analysis) :
  forall rows, Summary.summary_rows data = Some rows ->
               map Summary.row_symbol rows = Dict.keys data.
Proof.
  induction data as [| [sym stock] data IH]; intros rows H.
  - injection H as <-. reflexivity.
  - cbn [Summary.summary_rows] in H.
    destruct (Summary.summary_row sym stock) as [row |] eqn:Er; [| discriminate].
    destruct (Summary.summary_rows data) as [rows' |]; [| discriminate].
    injection H as <-. cbn [map Dict.keys fst].
    rewrite (summary_row_symbol sym stock row Er).
    f_equal. now apply IH.
Qed.

Lemma display_summary_some (data : Dict.dict Analysis) :
  is_some (Summary.display_summary data)
  = forallb (fun item => summary_ready (snd item)) data.
Proof.
  rewrite <- summary_rows_some. unfold Summary.display_summary.
  destruct (Summary.summary_rows data); reflexivity.
Qed.

(** X14: [display_summary] completes exactly when every record has a
    name, current stats, a 30-day change and a 30-day average that are not
    [None]; one record without them (the error record of a failed fetch, a
    ticker with fewer than 30 bars) makes it raise.  When it completes it
    prints one row per record, in the order of the data, and the winners
    and losers add up to the number of records. *)
Theorem display_summary_completes (data : Dict.dict Analysis) :
  (is_some (Summary.display_summary data)
   = forallb (fun item => summary_ready (snd item)) data)
  /\ (forall s, Summary.display_summary data = Some s ->
        map Summary.row_symbol (Summary.rows s) = Dict.keys data
        /\ List.length (Summary.rows s) = List.length data
        /\ (Summary.winners s + Summary.losers s = List.length data)%nat).
Proof.
  split; [apply display_summary_some |].
  - intros s H. unfold Summary.display_summary in H.
    destruct (Summary.summary_rows data) as [rows |] eqn:E; [| discriminate].
    injection H as <-.
    cbn [Summary.rows Summary.winners Summary.losers].
    pose proof (summary_rows_symbols data rows E) as Hs.
    assert (Hl : List.length rows = List.length data).
    { apply (f_equal (@List.length string)) in Hs.
      unfold Dict.keys in Hs. now rewrite !length_map in Hs. }
    split; [exact Hs |]. split; [exact Hl |].
    match goal with
    | |- (?w + _ = _)%nat =>
        assert (Hw : (w <= List.length rows)%nat) by apply length_filter_le
    end.
    lia.
Qed.

Lemma display_summary_completes_witness :
  exists s,
    Summary.display_summary (StockAnalyzer.analyze_all_stocks fetch_forty)
    = Some s
    /\ List.length (Summary.rows s) = 8%nat.
Proof.
  destruct (Summary.display_summary
              (StockAnalyzer.analyze_all_stocks fetch_forty)) as [s |] eqn:E.
  - exists s. split; [reflexivity |].
    destruct (display_summary_completes
                (StockAnalyzer.analyze_all_stocks fetch_forty)) as [_ H].
    destruct (H s E) as [_ [Hl _]]. rewrite Hl. reflexivity.
  - vm_compute in E. discriminate.
Defined.

Lemma analyze_stock_summary_ready (sym : string) (df : DataFrame) :
  summary_ready (StockAnalyzer.analyze_stock sym df)
  = (30 <=? List.length df)%nat.
Proof.
  destruct df as [| b df']; [reflexivity |].
  unfold summary_ready, StockAnalyzer.analyze_stock.
  cbn [StockAnalyzer.get_current_stats name current_stats price_changes
       moving_averages is_some andb defined_entry Dict.get String.eqb
       Ascii.eqb Bool.eqb].
  change "30d_MA"%string with (StockAnalyzer.ma_key 30).
  rewrite sa_moving_averages_get by (discriminate || (simpl; tauto)).
  pose proof (change_over_defined (b :: df') (stats_of (last df' b)) 30) as Hc.
  unfold sa_ma_value.
  destruct (StockAnalyzer.change_over (b :: df') (stats_of (last df' b)) 30);
    cbn [is_some] in Hc |- *; rewrite <- Hc by lia; reflexivity.
Qed.

(** X15: the summary of a batch run completes exactly when the supplier
    returned at least 30 bars for every tracked ticker: a single failed
    fetch or short history makes [display_summary] raise on the file that
    [stock_analyzer.py] wrote. *)
Theorem summary_of_batch_needs_30_bars (fetch : string -> DataFrame) :
  is_some (Summary.display_summary (StockAnalyzer.analyze_all_stocks fetch))
  = forallb (fun sym => (30 <=? List.length (fetch sym))%nat)
            (Dict.keys STOCKS).
Proof.
  rewrite display_summary_some, analyze_all_stocks_eq.
  induction (Dict.keys STOCKS) as [| sym syms IH]; [reflexivity |].
  cbn [map forallb snd]. now rewrite analyze_stock_summary_ready, IH.
Qed.

Lemma summary_of_batch_needs_30_bars_witness :
  Summary.display_summary (StockAnalyzer.analyze_all_stocks fetch_without_uber)
  = None.
Proof.
  pose proof (summary_of_batch_needs_30_bars fetch_without_uber) as H.
  destruct (Summary.display_summary
              (StockAnalyzer.analyze_all_stocks fetch_without_uber));
    [vm_compute in H; discriminate | reflexivity].
Defined.

(** ** The normalized series of the comparison chart *)

(** X16: for a frame whose first close is positive, the series that
    [plot_comparison] draws has one finite value per bar, [(c / first - 1)
    * 100] for a close [c]; it starts at 0, and a value is positive
    exactly when its close is above the first close and negative exactly
    when it is below. *)
Theorem normalized_series (b : Bar) (df' : DataFrame) :
  0 < Close b ->
  let df := b :: df' in
  List.length (StockVisualizer.normalized df) = List.length df
  /\ (exists v0, hd_error (StockVisualizer.normalized df) = Some (Fin v0)
                 /\ v0 == 0)
  /\ (forall i c,
        nth_error (map Close df) i = Some c ->
        exists v,
          nth_error (StockVisualizer.normalized df) i = Some (Fin v)
          /\ v == (c / Close b - 1) * 100
          /\ (0 < v <-> Close b < c)
          /\ (v < 0 <-> c < Close b)).
Proof.
  intros Hb df. subst df.
  assert (Hval : forall c,
             fmul (fsub (fdiv (Fin c) (Fin (Close b))) (Fin 1)) hundred
             = Fin ((c / Close b + - 1) * 100)).
  { intros c. unfold fdiv. rewrite Qeq_bool_false by lra. reflexivity. }
  assert (Hn : StockVisualizer.normalized (b :: df')
               = map (fun c => Fin ((c / Close b + - 1) * 100))
                     (map Close (b :: df'))).
  { unfold StockVisualizer.normalized. rewrite col_as_map.
    cbn [map]. rewrite !map_map. f_equal; [apply Hval |].
    apply map_ext. intros a. apply Hval. }
  rewrite Hn. split; [now rewrite !length_map |].
  split.
  { cbn [map hd_error]. eexists. split; [reflexivity |]. field. lra. }
  intros i c Hi. rewrite nth_error_map, Hi. cbn [option_map].
  eexists. split; [reflexivity |].
  set (v := (c / Close b + - 1) * 100).
  assert (Hv : v == (c + - Close b) / Close b * 100) by (unfold v; field; lra).
  destruct (pct_sign c (Close b) Hb) as [Hgt [Hlt Heq]].
  rewrite <- Hv in Hgt, Hlt, Heq.
  split; [unfold v; ring |].
  split; split; intros H.
  - destruct (Qlt_le_dec (Close b) c) as [? | Hle]; [assumption |].
    apply Qle_lteq in Hle. destruct Hle as [Hle | Hle].
    + specialize (Hlt Hle). lra.
    + specialize (Heq Hle). lra.
  - now apply Hgt.
  - destruct (Qlt_le_dec c (Close b)) as [? | Hle]; [assumption |].
    apply Qle_lteq in Hle. destruct Hle as [Hle | Hle].
    + specialize (Hgt Hle). lra.
    + assert (E : c == Close b) by lra. specialize (Heq E). lra.
  - now apply Hlt.
Qed.

Lemma normalized_series_witness :
  exists v0,
    hd_error (StockVisualizer.normalized up_frame) = Some (Fin v0)
    /\ v0 == 0.
Proof.
  assert (Hb : 0 < Close (mkBar "2024-01-02" 100 100 100 100 1000))
    by reflexivity.
  destruct (normalized_series _ (bars [110]) Hb) as [_ [H _]].
  exact H.
Defined.

(** ** The signal beside the RSI *)

(** X17: for a series of at least 20 bars the signal that
    [print_comprehensive_analysis] shows follows the window of the RSI:
    gains without any loss give Overbought, a window without any move
    gives Neutral, because its RSI is NaN and fails both comparisons, and
    a finite RSI gives Oversold below 30, Overbought above 70 and Neutral
    from 30 to 70. *)
Theorem rsi_signal_of_window (df : DataFrame) :
  (20 <= List.length df)%nat ->
  exists g l v,
    iloc_last (AdvancedStockAnalyzer.rsi_gain df) = Fin g
    /\ iloc_last (AdvancedStockAnalyzer.rsi_loss df) = Fin l
    /\ Dict.get "RSI_14"
         (AdvancedStockAnalyzer.calculate_technical_indicators df) = Some v
    /\ (l == 0 -> 0 < g ->
        AdvancedStockAnalyzer.rsi_signal v = "Overbought"%string)
    /\ (l == 0 -> g == 0 ->
        AdvancedStockAnalyzer.rsi_signal v = "Neutral"%string)
    /\ (forall q, v = Fin q ->
          (q < 30 -> AdvancedStockAnalyzer.rsi_signal v = "Oversold"%string)
          /\ (70 < q ->
              AdvancedStockAnalyzer.rsi_signal v = "Overbought"%string)
          /\ (30 <= q <= 70 ->
              AdvancedStockAnalyzer.rsi_signal v = "Neutral"%string)).
Proof.
  intros Hlen.
  destruct (rsi_gain_nonneg df) as [g [Hg Hg0]]; [lia |].
  destruct (rsi_loss_nonneg df) as [l [Hl Hl0]]; [lia |].
  exists g, l, (round (rsi_of (Fin g) (Fin l)) 2).
  assert (Hdf : df <> []) by (destruct df; simpl in *; [lia | discriminate]).
  rewrite technical_indicators_rsi.
  destruct (Nat.leb_spec 20 (List.length df)); [| lia].
  rewrite (rsi_last df Hdf), Hg, Hl.
  split; [reflexivity |]. split; [reflexivity |]. split; [reflexivity |].
  assert (Hfin : forall q, AdvancedStockAnalyzer.rsi_signal (Fin q)
                           = if Qlt_le_dec q 30 then "Oversold"%string
                             else if Qlt_le_dec 70 q then "Overbought"%string
                                  else "Neutral"%string).
  { intros q. unfold AdvancedStockAnalyzer.rsi_signal, fgtb, fltb.
    destruct (Qcompare_cases q 30) as [[E1 C1] | [[E1 C1] | [E1 C1]]];
      rewrite E1;
      destruct (Qcompare_cases 70 q) as [[E2 C2] | [[E2 C2] | [E2 C2]]];
      try rewrite E2;
      destruct (Qlt_le_dec q 30); try lra;
      destruct (Qlt_le_dec 70 q); try lra; reflexivity. }
  split; [| split].
  - intros Hz Hp. pose proof (rsi_of_no_loss g l Hp Hz) as Hf.
    destruct (round (rsi_of (Fin g) (Fin l)) 2) as [q | | |];
      simpl in Hf; try contradiction.
    rewrite Hfin.
    destruct (Qlt_le_dec q 30); [lra |].
    destruct (Qlt_le_dec 70 q); [reflexivity | lra].
  - intros Hz Hgz. now rewrite (rsi_of_no_move g l Hgz Hz).
  - intros q Hv. rewrite Hv, Hfin.
    repeat split; intros Hq;
      destruct (Qlt_le_dec q 30); try lra; try reflexivity;
      destruct (Qlt_le_dec 70 q); try lra; reflexivity.
Qed.

Lemma rsi_signal_of_window_witness :
  exists v,
    Dict.get "RSI_14"
      (AdvancedStockAnalyzer.calculate_technical_indicators flat_frame)
    = Some v
    /\ AdvancedStockAnalyzer.rsi_signal v = "Neutral"%string.
Proof.
  assert (H : (20 <= List.length flat_frame)%nat) by (vm_compute; lia).
  destruct (rsi_signal_of_window flat_frame H)
    as [g [l [v [Hg [Hl [Hv [_ [Hn _]]]]]]]].
  exists v. split; [exact Hv |].
  assert (Eg : iloc_last (AdvancedStockAnalyzer.rsi_gain flat_frame)
               = Fin (0 # 14)) by (vm_compute; reflexivity).
  assert (El : iloc_last (AdvancedStockAnalyzer.rsi_loss flat_frame)
               = Fin (0 # 14)) by (vm_compute; reflexivity).
  rewrite Eg in Hg. rewrite El in Hl.
  injection Hg as <-. injection Hl as <-.
  apply Hn; reflexivity.
Defined.

(** ** Rankings of a batch run *)

Lemma keys_of_ranked (period : string) (data : StockComparator.Data) :
  map fst (flat_map (performance_of period) data)
  = map fst
      (filter (fun item =>
                 is_some (defined_entry (price_changes (snd item)) period))
              data).
Proof.
  induction data as [| [sym rec] data IH]; [reflexivity |].
  cbn [flat_map filter]. rewrite map_app, IH.
  unfold performance_of, defined_entry. cbn [fst snd].
  destruct (price_changes rec) as [changes |]; [| reflexivity].
  destruct (Dict.get period changes) as [[c |] |]; reflexivity.
Qed.

Lemma nodup_keys_filter {V : Type} (f : string * V -> bool)
      (d : Dict.dict V) :
  NoDup (Dict.keys d) -> NoDup (map fst (filter f d)).
Proof.
  unfold Dict.keys. induction d as [| x d IH]; intros H; [constructor |].
  cbn [map] in H. inversion H as [| ? ? Hx Hd]; subst.
  cbn [filter]. destruct (f x); [| now apply IH].
  cbn [map]. constructor; [| now apply IH].
  intros Hin. apply Hx. apply in_map_iff in Hin.
  destruct Hin as [y [Ey Hy]]. apply filter_In in Hy.
  apply in_map_iff. exists y. tauto.
Qed.

(** X18: for data with pairwise distinct symbols, the ranking of a
    horizon lists each symbol at most once, lists only symbols of the
    data, is never longer than the data, and leaves out every record
    without price changes, such as the error record of a failed fetch. *)
Theorem ranking_symbols_unique (data : StockComparator.Data)
        (period : string) :
  NoDup (Dict.keys data) ->
  let ranking := StockComparator.get_best_performers data period in
  NoDup (map fst ranking)
  /\ (forall sym, In sym (map fst ranking) -> In sym (Dict.keys data))
  /\ (List.length ranking <= List.length data)%nat
  /\ (forall sym rec, In (sym, rec) data -> price_changes rec = None ->
                      ~ In sym (map fst ranking)).
Proof.
  intros Hnd ranking. subst ranking.
  unfold StockComparator.get_best_performers.
  assert (Hp : Permutation
                 (map fst (StockComparator.sorted_reverse
                             (StockComparator.performances data period)))
                 (map fst
                    (filter (fun item =>
                               is_some (defined_entry (price_changes (snd item))
                                                      period)) data))).
  { rewrite <- keys_of_ranked, <- performances_flat_map.
    apply Permutation_map, sorted_reverse_perm. }
  assert (Hsub : forall sym,
             In sym (map fst (StockComparator.sorted_reverse
                                (StockComparator.performances data period))) ->
             exists rec, In (sym, rec) data
                         /\ is_some (defined_entry (price_changes rec) period)
                            = true).
  { intros sym Hin. apply (Permutation_in _ Hp) in Hin.
    apply in_map_iff in Hin. destruct Hin as [[s rec] [Es Hin]].
    apply filter_In in Hin. cbn [fst snd] in *. subst s.
    exists rec. exact Hin. }
  split; [| split; [| split]].
  - eapply Permutation_NoDup; [symmetry; exact Hp |].
    now apply nodup_keys_filter.
  - intros sym Hin. destruct (Hsub sym Hin) as [rec [Hrec _]].
    unfold Dict.keys. apply in_map_iff. now exists (sym, rec).
  - rewrite <- (length_map fst), (Permutation_length Hp), length_map.
    apply length_filter_le.
  - intros sym rec Hin Hnone Hr. destruct (Hsub sym Hr) as [rec' [Hin' Hdef]].
    assert (E : rec' = rec).
    { clear - Hnd Hin Hin'. unfold Dict.keys in Hnd.
      induction data as [| [s r] data IH]; [destruct Hin |].
      cbn [map fst] in Hnd. inversion Hnd as [| ? ? Hx Hd]; subst.
      destruct Hin as [E | Hin], Hin' as [E' | Hin'].
      - congruence.
      - injection E as -> ->. exfalso. apply Hx.
        apply in_map_iff. now exists (sym, rec').
      - injection E' as -> ->. exfalso. apply Hx.
        apply in_map_iff. now exists (sym, rec).
      - now apply IH. }
    subst rec'. unfold defined_entry in Hdef. rewrite Hnone in Hdef.
    discriminate.
Qed.

Lemma ranking_symbols_unique_witness :
  ~ In "UBER"%string
       (map fst (StockComparator.get_best_performers data_with_error
                   "30_day_change_%")).
Proof.
  assert (Hnd : NoDup (Dict.keys data_with_error)).
  { cbn. repeat constructor; simpl; intuition discriminate. }
  destruct (ranking_symbols_unique data_with_error "30_day_change_%" Hnd)
    as [_ [_ [_ H]]].
  apply (H "UBER"%string error_record); [simpl; tauto | reflexivity].
Defined.

Lemma momentum_score_finite (data : StockComparator.Data) (sym : string) :
  (forall rec changes k c,
      Dict.get sym data = Some rec -> price_changes rec = Some changes ->
      Dict.get k changes = Some (Some c) -> exists q, c = Fin q) ->
  exists q, StockComparator.get_momentum_score data sym = Fin q.
Proof.
  intros H. unfold StockComparator.get_momentum_score.
  destruct (Dict.get sym data) as [rec |] eqn:Ed; [| eexists; reflexivity].
  destruct (price_changes rec) as [changes |] eqn:Ec; [| eexists; reflexivity].
  unfold StockComparator.momentum_sums, StockComparator.weights.
  cbn [fold_left].
  destruct (Dict.get "15_day_change_%" changes) as [[a |] |] eqn:E15;
    destruct (Dict.get "30_day_change_%" changes) as [[b |] |] eqn:E30;
    try (destruct (H rec changes _ a eq_refl Ec E15) as [qa ->]);
    try (destruct (H rec changes _ b eq_refl Ec E30) as [qb ->]);
    eexists; reflexivity.
Qed.

Lemma nth_positive (l : list Q) (i : nat) :
  Forall (fun c => 0 < c) l -> (i < List.length l)%nat -> 0 < nth i l 0.
Proof.
  intros Hall Hi. rewrite Forall_forall in Hall. apply Hall. now apply nth_In.
Qed.

Lemma change_over_finite (df : DataFrame) (stats : CurrentStats) (cp : Q)
      (days : nat) (c : float) :
  Forall (fun b => 0 < Close b) df -> (1 <= days)%nat ->
  current_price stats = Fin cp ->
  StockAnalyzer.change_over df stats days = Some c ->
  exists q, c = Fin q.
Proof.
  intros Hpos Hd Hcp. unfold StockAnalyzer.change_over.
  destruct (Nat.leb_spec days (List.length df)) as [Hle | _]; [| discriminate].
  rewrite iloc_neg_col by assumption.
  intros H. injection H as <-. rewrite Hcp. unfold pct_change.
  rewrite pct_of_positive; [eexists; reflexivity |].
  apply nth_positive.
  - apply (Forall_map_intro (fun b => 0 < Close b)); auto.
  - rewrite length_map.
    destruct df; [simpl in Hle; lia | cbn [List.length] in *; lia].
Qed.

Lemma analyze_stock_changes_finite (sym : string) (df : DataFrame)
      (changes : Dict.dict (option float)) (k : string) (c : float) :
  Forall (fun b => 0 < Close b) df ->
  price_changes (StockAnalyzer.analyze_stock sym df) = Some changes ->
  Dict.get k changes = Some (Some c) ->
  exists q, c = Fin q.
Proof.
  intros Hpos. destruct df as [| b df']; [discriminate |].
  unfold StockAnalyzer.analyze_stock.
  cbn [StockAnalyzer.get_current_stats price_changes].
  intros H. injection H as <-. cbn [Dict.get].
  destruct (String.eqb k "15_day_change_%").
  - intros H. injection H as H.
    eapply (change_over_finite _ _ _ 15 c Hpos); [lia | | exact H].
    reflexivity.
  - destruct (String.eqb k "30_day_change_%"); [| discriminate].
    intros H. injection H as H.
    eapply (change_over_finite _ _ _ 30 c Hpos); [lia | | exact H].
    reflexivity.
Qed.

Lemma analyze_stock_change30 (sym : string) (df : DataFrame) :
  is_some (defined_entry (price_changes (StockAnalyzer.analyze_stock sym df))
                         "30_day_change_%")
  = (30 <=? List.length df)%nat.
Proof.
  destruct df as [| b df']; [reflexivity |].
  unfold StockAnalyzer.analyze_stock.
  cbn [StockAnalyzer.get_current_stats price_changes defined_entry Dict.get
       String.eqb Ascii.eqb Bool.eqb].
  pose proof (change_over_defined (b :: df') (stats_of (last df' b)) 30) as Hc.
  destruct (StockAnalyzer.change_over (b :: df') (stats_of (last df' b)) 30);
    cbn [is_some] in Hc |- *; rewrite <- Hc by lia; reflexivity.
Qed.

Lemma keys_filter_map {V : Type} (f : string * V -> bool) (g : string -> V)
      (ks : list string) :
  map fst (filter f (map (fun s => (s, g s)) ks))
  = filter (fun s => f (s, g s)) ks.
Proof.
  induction ks as [| k ks IH]; [reflexivity |].
  cbn [map filter]. destruct (f (k, g k)); cbn [map fst]; now rewrite IH.
Qed.

Lemma nan_of_finite (x : float) : (exists q, x = Fin q) -> is_nan x = false.
Proof. intros [q ->]. reflexivity. Qed.

(** X19: for a batch run over frames with positive closes, the 30-day
    ranking of the comparator lists exactly the tracked tickers whose frame
    has at least 30 bars, the momentum ranking lists every tracked ticker,
    and both rankings are in descending order, because every change and
    score that comes out of [analyze_stock] is a finite number. *)
Theorem batch_rankings (fetch : string -> DataFrame) :
  (forall sym, Forall (fun b => 0 < Close b) (fetch sym)) ->
  let data := StockAnalyzer.analyze_all_stocks fetch in
  let ranking := StockComparator.get_best_performers data "30_day_change_%" in
  Permutation (map fst ranking)
              (filter (fun s => (30 <=? List.length (fetch s))%nat)
                      (Dict.keys STOCKS))
  /\ StronglySorted desc ranking
  /\ Permutation (map fst (StockComparator.momentum_scores data))
                 (Dict.keys STOCKS)
  /\ StronglySorted desc (StockComparator.momentum_scores data).
Proof.
  intros Hpos data ranking. subst ranking.
  assert (Ed : data = map (fun s => (s, StockAnalyzer.analyze_stock s (fetch s)))
                          (Dict.keys STOCKS))
    by apply analyze_all_stocks_eq.
  assert (Hrec : forall sym rec, In (sym, rec) data ->
                                 rec = StockAnalyzer.analyze_stock sym (fetch sym)).
  { intros sym rec Hin. rewrite Ed in Hin. apply in_map_iff in Hin.
    destruct Hin as [s [E _]]. now injection E as -> <-. }
  unfold StockComparator.get_best_performers.
  split; [| split; [| split]].
  - etransitivity.
    + apply Permutation_map, sorted_reverse_perm.
    + rewrite performances_flat_map, keys_of_ranked, Ed, keys_filter_map.
      cbn [snd].
      erewrite filter_ext; [reflexivity |].
      intros s. apply analyze_stock_change30.
  - apply sorted_reverse_sorted. unfold no_nan. apply Forall_forall.
    intros [sym c] Hin. cbn [snd].
    apply in_performances in Hin.
    destruct Hin as [rec [changes [Hin [Hc Hg]]]].
    apply nan_of_finite. rewrite (Hrec sym rec Hin) in Hc.
    exact (analyze_stock_changes_finite sym (fetch sym) changes _ c
             (Hpos sym) Hc Hg).
  - etransitivity.
    + apply Permutation_map, sorted_reverse_perm.
    + fold (scored data). unfold scored. rewrite map_map. cbn [fst].
      rewrite map_id, Ed. unfold Dict.keys at 1. rewrite map_map. cbn [fst].
      now rewrite map_id.
  - apply sorted_reverse_sorted. unfold no_nan. apply Forall_forall.
    intros [sym c] Hin. cbn [snd]. apply in_map_iff in Hin.
    destruct Hin as [s [E Hs]]. injection E as -> <-.
    apply nan_of_finite, momentum_score_finite.
    intros rec changes k c Hg Hc Hk.
    assert (Hin : In (sym, rec) data).
    { clear - Hg. induction data as [| [s r] d IH]; [discriminate |].
      simpl in Hg. destruct (String.eqb_spec sym s) as [-> | _].
      - injection Hg as ->. now left.
      - right. now apply IH. }
    rewrite (Hrec sym rec Hin) in Hc.
    exact (analyze_stock_changes_finite sym (fetch sym) changes k c
             (Hpos sym) Hc Hk).
Qed.

Lemma batch_rankings_witness :
  Permutation
    (map fst (StockComparator.get_best_performers
                (StockAnalyzer.analyze_all_stocks fetch_without_uber)
                "30_day_change_%"))
    ["META"; "AAPL"; "AMZN"; "NFLX"; "GOOGL"; "MSFT"; "NVDA"]%string.
Proof.
  assert (Hpos : forall sym,
             Forall (fun b => 0 < Close b) (fetch_without_uber sym)).
  { intros sym. unfold fetch_without_uber.
    destruct (String.eqb sym "UBER"); [constructor |].
    vm_compute. repeat constructor. }
  destruct (batch_rankings fetch_without_uber Hpos) as [H _].
  exact H.
Defined.

(* ================================================================== *)
(** * Rounding, stated without the rounding function *)







(** * The report *)

(** ** Lookups *)

Lemma get_in {V : Type} (k : string) (v : V) (d : Dict.dict V) :
  Dict.get k d = Some v -> In (k, v) d.
Proof.
  induction d as [| [k' v'] d IH]; simpl; [discriminate |].
  destruct (String.eqb_spec k k') as [-> | _].
  - intros H. injection H as ->. now left.
  - intros H. right. now apply IH.
Qed.

Lemma get_of_key {V : Type} (k : string) (d : Dict.dict V) :
  In k (Dict.keys d) -> exists v, Dict.get k d = Some v.
Proof.
  unfold Dict.keys. induction d as [| [k' v'] d IH]; simpl; [intros [] |].
  destruct (String.eqb_spec k k') as [-> | Hne]; [eauto |].
  intros [E | Hin]; [congruence | now apply IH].
Qed.

Lemma key_of_get {V : Type} (k : string) (v : V) (d : Dict.dict V) :
  Dict.get k d = Some v -> In k (Dict.keys d).
Proof.
  intros H. apply get_in in H. unfold Dict.keys.
  now apply (in_map fst) in H.
Qed.



(** ** When the report is reached, and what it holds *)

Lemma report_fields (data : StockComparator.Data) (r : StockComparator.Report) :
  StockComparator.generate_report data = Returned (Some r) ->
  data <> []
  /\ StockComparator.performers r
     = StockComparator.get_best_performers data "30_day_change_%"
  /\ StockComparator.best r = hd_error (StockComparator.performers r)
  /\ StockComparator.worst r = last_error (StockComparator.performers r)
  /\ StockComparator.momentum_ranking r = StockComparator.momentum_scores data
  /\ StockComparator.highest_momentum r
     = hd_error (StockComparator.momentum_scores data)
  /\ StockComparator.strong_bullish r
     = filter (fun sym => Qle_bool 80 (StockComparator.strength_or_zero data sym))
              (Dict.keys data)
  /\ StockComparator.bearish r
     = filter (fun sym =>
                 negb (Qle_bool 40 (StockComparator.strength_or_zero data sym)))
              (Dict.keys data).
Proof.
  destruct data as [| item data']; [discriminate |].
  intros H. unfold StockComparator.generate_report in H.
  cbv beta iota zeta in H.
  repeat match type of H with
         | context [negb (forallb ?f ?l)] =>
             destruct (forallb f l); cbn [negb] in H; [| discriminate]
         end.
  injection H as <-.
  split; [discriminate |]. repeat split.
Qed.

Lemma report_checks (data : StockComparator.Data) :
  data <> [] ->
  ((exists r, StockComparator.generate_report data = Returned (Some r))
   <-> forallb (fun p => StockComparator.has_name data (fst p))
               (StockComparator.get_best_performers data "30_day_change_%")
       = true
       /\ forallb (fun sym =>
                     match StockComparator.analyze_trend_strength data sym with
                     | Some _ => StockComparator.has_name data sym
                     | None => true
                     end) (Dict.keys data) = true
       /\ forallb (fun p => StockComparator.has_name data (fst p))
                  (StockComparator.momentum_scores data) = true
       /\ forallb (fun item => StockComparator.prints_averages (snd item)) data
          = true).
Proof.
  intros Hd. destruct data as [| item data']; [contradiction |].
  unfold StockComparator.generate_report. cbv beta iota zeta.
  split.
  - intros [r H].
    repeat match type of H with
           | context [negb (forallb ?f ?l)] =>
               destruct (forallb f l); cbn [negb] in H; [| discriminate]
           end.
    repeat split.
  - intros [H1 [H2 [H3 H4]]]. rewrite H1, H2, H3, H4. cbn [negb].
    eexists. reflexivity.
Qed.

Lemma report_raises (data : StockComparator.Data) :
  data <> [] ->
  StockComparator.generate_report data = Raised
  \/ exists r, StockComparator.generate_report data = Returned (Some r).
Proof.
  intros Hd. destruct data as [| item data']; [contradiction |].
  unfold StockComparator.generate_report. cbv beta iota zeta.
  repeat match goal with
         | |- context [negb (forallb ?f ?l)] =>
             destruct (forallb f l); cbn [negb]; [| now left]
         end.
  right. eexists. reflexivity.
Qed.

Lemma has_name_spec (data : StockComparator.Data) (sym : string) :
  StockComparator.has_name data sym = true
  <-> exists stock, Dict.get sym data = Some stock /\ name stock <> None.
Proof.
  unfold StockComparator.has_name. split.
  - destruct (Dict.get sym data) as [stock |]; [| discriminate].
    destruct (name stock) eqn:E; [| discriminate].
    intros _. exists stock. split; [reflexivity | congruence].
  - intros [stock [-> Hn]]. destruct (name stock); [reflexivity | congruence].
Qed.

Lemma prints_averages_spec (stock : Analysis) :
  StockComparator.prints_averages stock = true
  <-> forall stats ma key,
        current_stats stock = Some stats ->
        moving_averages stock = Some ma ->
        In key printed_averages ->
        Dict.get key ma <> Some None.
Proof.
  unfold StockComparator.prints_averages.
  destruct (current_stats stock) as [stats |].
  - destruct (moving_averages stock) as [ma |].
    + fold printed_averages. rewrite forallb_forall. split.
      * intros H stats' ma' key _ E Hin. injection E as <-.
        specialize (H key Hin). intros Hg. rewrite Hg in H. discriminate.
      * intros H key Hin. specialize (H stats ma key eq_refl eq_refl Hin).
        destruct (Dict.get key ma) as [[v |] |]; [reflexivity | | reflexivity].
        now contradiction H.
    + split; [intros _ ? ? ? _ ?; discriminate | reflexivity].
  - split; [intros _ ? ? ? ?; discriminate | reflexivity].
Qed.

Lemma in_momentum_scores (data : StockComparator.Data) (p : string * float) :
  In p (StockComparator.momentum_scores data)
  <-> In p (scored data).
Proof.
  unfold StockComparator.momentum_scores. fold (scored data).
  split; intros H.
  - eapply Permutation_in; [apply sorted_reverse_perm | exact H].
  - now apply in_sorted_reverse.
Qed.

(** On data that is not empty, [generate_report] reaches its summary
    exactly when the data is ready for it, and raises otherwise. *)
Lemma report_returns (data : StockComparator.Data) :
  data <> [] ->
  (report_ready data
   <-> exists r, StockComparator.generate_report data = Returned (Some r)).
Proof.
  intros Hd. rewrite (report_checks data Hd). unfold report_ready. split.
  - intros [Hname Havg].
    assert (Hkey : forall sym, In sym (Dict.keys data) ->
                               StockComparator.has_name data sym = true).
    { intros sym Hin. apply has_name_spec.
      destruct (get_of_key sym data Hin) as [stock Hg].
      exists stock. split; [exact Hg | now apply (Hname sym)]. }
    split; [| split; [| split]]; apply forallb_forall.
    + intros [sym v] Hin. apply Hkey. cbn [fst].
      unfold StockComparator.get_best_performers in Hin.
      apply (Permutation_in _ (sorted_reverse_perm _)) in Hin.
      apply in_performances in Hin.
      destruct Hin as [rec [changes [Hin _]]].
      unfold Dict.keys. now apply (in_map fst) in Hin.
    + intros sym Hin.
      destruct (StockComparator.analyze_trend_strength data sym);
        [now apply Hkey | reflexivity].
    + intros [sym v] Hin. apply Hkey. cbn [fst].
      apply in_momentum_scores in Hin. unfold scored in Hin.
      apply in_map_iff in Hin. destruct Hin as [s [E Hin]].
      injection E as <- _. exact Hin.
    + intros [sym stock] Hin. cbn [snd]. apply prints_averages_spec.
      intros stats ma key. now apply (Havg sym).
  - intros [_ [_ [H3 H4]]]. rewrite forallb_forall in H3, H4. split.
    + intros sym stock Hg.
      assert (Hin : In (sym, StockComparator.get_momentum_score data sym)
                       (StockComparator.momentum_scores data)).
      { apply in_momentum_scores. unfold scored.
        apply (in_map (fun s => (s, StockComparator.get_momentum_score data s))).
        now apply (key_of_get sym stock). }
      specialize (H3 _ Hin). cbn [fst] in H3.
      apply has_name_spec in H3. destruct H3 as [stock' [Hg' Hn]].
      congruence.
    + intros sym stock stats ma key Hin.
      specialize (H4 _ Hin). cbn [snd] in H4.
      now apply prints_averages_spec.
Qed.

(** The record [stock_analyzer.py] writes after a failed fetch has no
    name, and a record with fewer than 200 bars has [None] under its
    200-day average: on either, the report raises before its summary. *)
Lemma report_raises_on_analyzer_records :
  StockComparator.generate_report data_with_error = Raised
  /\ StockComparator.generate_report three_ma_data = Raised.
Proof. split; vm_compute; reflexivity. Qed.

(** ** The performance ranking and the extremes of the report *)




(** The scenario of the specification: A at +10, B at -5, C without a
    30-day change. *)
Lemma best_performers_scenario :
  StockComparator.get_best_performers data_abc "30_day_change_%"
  = [("A"%string, Fin 10); ("B"%string, Fin (-5))]
  /\ exists r,
       StockComparator.generate_report data_abc = Returned (Some r)
       /\ StockComparator.best r = Some ("A"%string, Fin 10)
       /\ StockComparator.worst r = Some ("B"%string, Fin (-5)).
Proof.
  split; [vm_compute; reflexivity |].
  eexists. split; [vm_compute; reflexivity |].
  split; reflexivity.
Qed.

(** ** Ties and NaN in the momentum ranking *)

(** C7 as stated fails: B and A have the same score, the ranking lists B
    before A although A is the smaller symbol, and the same two records
    given in the other order are ranked the other way round. *)
Lemma momentum_ties_keep_data_order :
  map fst (StockComparator.momentum_scores data_ba) = ["B"; "A"]%string
  /\ feq (StockComparator.get_momentum_score data_ba "A")
         (StockComparator.get_momentum_score data_ba "B")
  /\ String.ltb "A" "B" = true
  /\ Permutation data_ba data_ab
  /\ map fst (StockComparator.momentum_scores data_ab) = ["A"; "B"]%string.
Proof.
  split; [vm_compute; reflexivity |].
  split; [vm_compute; reflexivity |].
  split; [vm_compute; reflexivity |].
  split; [apply perm_swap |].
  vm_compute; reflexivity.
Qed.

(** A score that is NaN is not ordered: with scores of 1, NaN and 2, in
    this order, the sort leaves the list as it is, and the entry with the
    greatest score comes last. *)
Lemma momentum_ranking_with_nan :
  map fst (StockComparator.momentum_scores data_nan) = ["A"; "N"; "B"]%string
  /\ is_nan (StockComparator.get_momentum_score data_nan "N") = true
  /\ fltb (StockComparator.get_momentum_score data_nan "A")
          (StockComparator.get_momentum_score data_nan "B") = true
  /\ ~ StronglySorted desc (StockComparator.momentum_scores data_nan).
Proof.
  split; [vm_compute; reflexivity |].
  split; [vm_compute; reflexivity |].
  split; [vm_compute; reflexivity |].
  intros H.
  set (l := StockComparator.momentum_scores data_nan) in H.
  vm_compute in l. subst l.
  inversion H as [| ? ? _ Hall]; subst.
  inversion Hall as [| ? ? _ Hall']; subst.
  inversion Hall' as [| ? ? Hd _]; subst.
  vm_compute in Hd. discriminate.
Qed.

(** ** Which indicators a short series has *)




(** ** The cohorts and the highest momentum of the report *)

(** X11: whenever the report reaches its summary, its two cohorts agree
    with the trend labels as far as the rounding of the score allows: a
    symbol labelled Strong Bullish is in the strong-bullish cohort, a
    symbol of the below-most-averages cohort that has a trend is labelled
    Moderately or Strong Bearish, no symbol is in both cohorts, and a
    symbol without trend data (its score defaults to 0) is listed among
    the symbols below most averages. *)
Theorem cohort_consistency (data : StockComparator.Data)
        (r : StockComparator.Report) (sym : string) :
  StockComparator.generate_report data = Returned (Some r) ->
  In sym (Dict.keys data) ->
  (StockComparator.analyze_trend_strength data sym = None ->
   In sym (StockComparator.bearish r)
   /\ ~ In sym (StockComparator.strong_bullish r))
  /\ (forall t, StockComparator.analyze_trend_strength data sym = Some t ->
                StockComparator.trend t = "Strong Bullish"%string ->
                In sym (StockComparator.strong_bullish r))
  /\ (forall t, StockComparator.analyze_trend_strength data sym = Some t ->
                In sym (StockComparator.bearish r) ->
                StockComparator.trend t = "Moderately Bearish"%string
                \/ StockComparator.trend t = "Strong Bearish"%string)
  /\ ~ (In sym (StockComparator.strong_bullish r)
        /\ In sym (StockComparator.bearish r))
  /\ (exists stock, Dict.get sym data = Some stock /\ name stock <> None).
Proof.
  intros Hr Hin.
  assert (Hready : report_ready data).
  { apply report_returns; [| eauto].
    destruct (report_fields data r Hr) as [Hd _]. exact Hd. }
  destruct (report_fields data r Hr) as [_ [_ [_ [_ [_ [_ [-> ->]]]]]]].
  split; [| split; [| split; [| split]]].
  - intros Hnone. split.
    + apply filter_In. split; [exact Hin |].
      unfold StockComparator.strength_or_zero. now rewrite Hnone.
    + intros H. apply filter_In in H. destruct H as [_ H].
      unfold StockComparator.strength_or_zero in H. rewrite Hnone in H.
      discriminate.
  - intros t Ht Hlab. apply filter_In. split; [exact Hin |].
    unfold StockComparator.strength_or_zero. rewrite Ht.
    destruct (trend_fields data sym t Ht) as [a [tot [_ ->]]].
    cbn [StockComparator.trend StockComparator.strength_score] in *.
    apply trend_label_strong_bullish in Hlab.
    apply Qle_bool_iff.
    apply Qle_trans with (Qround_nd 1 (inject_Z 80));
      [rewrite Qround_1_Z; discriminate | now apply Qround_nd_mono].
  - intros t Ht Hb. apply filter_In in Hb. destruct Hb as [_ Hb].
    unfold StockComparator.strength_or_zero in Hb. rewrite Ht in Hb.
    destruct (trend_fields data sym t Ht) as [a [tot [_ ->]]].
    cbn [StockComparator.trend StockComparator.strength_score] in *.
    apply negb_true_iff, Qle_bool_false in Hb.
    set (s := StockComparator.trend_strength a tot) in *.
    assert (Hs : s < 40).
    { destruct (Qlt_le_dec s 40) as [? | Hle]; [assumption |].
      assert (Qround_nd 1 (inject_Z 40) <= Qround_nd 1 s)
        by now apply Qround_nd_mono.
      rewrite Qround_1_Z in H. unfold inject_Z in H. lra. }
    destruct (trend_label_cases s) as [_ [_ [_ [H20 H0]]]].
    destruct (Qlt_le_dec s 20) as [Hlt | Hge].
    + right. now apply H0.
    + left. now apply H20.
  - intros [H80 H40].
    apply filter_In in H80. apply filter_In in H40.
    destruct H80 as [_ H80]. destruct H40 as [_ H40].
    apply Qle_bool_iff in H80. apply negb_true_iff, Qle_bool_false in H40.
    lra.
  - destruct (get_of_key sym data Hin) as [stock Hg].
    exists stock. split; [exact Hg |].
    destruct Hready as [Hname _]. now apply (Hname sym).
Qed.

Lemma cohort_consistency_witness :
  exists r,
    StockComparator.generate_report data_named_error = Returned (Some r)
    /\ In "UBER"%string (StockComparator.bearish r).
Proof.
  destruct (StockComparator.generate_report data_named_error)
    as [[r |] |] eqn:E;
    [| vm_compute in E; discriminate | vm_compute in E; discriminate].
  exists r. split; [reflexivity |].
  assert (Hin : In "UBER"%string (Dict.keys data_named_error))
    by (simpl; tauto).
  destruct (cohort_consistency data_named_error r "UBER" E Hin) as [H _].
  apply H. reflexivity.
Defined.

(** X12: whenever the report reaches its summary on data whose momentum
    scores are not NaN, it names a ticker with the highest momentum: the
    first entry of the momentum ranking, whose score no symbol of the
    data exceeds; the ranking has one entry per record.  On data that is
    not empty the summary is reached exactly when every record has a name
    and no printed average is [None]; otherwise the report raises. *)
Theorem highest_momentum_greatest (data : StockComparator.Data) :
  no_nan (scored data) ->
  (forall r,
      StockComparator.generate_report data = Returned (Some r) ->
      exists h,
        StockComparator.highest_momentum r = Some h
        /\ (exists rest, StockComparator.momentum_ranking r = h :: rest)
        /\ In h (scored data)
        /\ List.length (StockComparator.momentum_ranking r) = List.length data
        /\ (forall sym, In sym (Dict.keys data) ->
                        fleb (StockComparator.get_momentum_score data sym)
                             (snd h) = true))
  /\ (data <> [] ->
      (report_ready data
       <-> exists r, StockComparator.generate_report data = Returned (Some r))
      /\ (~ report_ready data ->
          StockComparator.generate_report data = Raised)).
Proof.
  intros Hn. split.
  - intros r Hr.
    destruct (report_fields data r Hr) as [Hd [_ [_ [_ [Hm [Hh _]]]]]].
    assert (Hp : Permutation (StockComparator.momentum_scores data)
                             (scored data))
      by apply sorted_reverse_perm.
    assert (Hs : StronglySorted desc (StockComparator.momentum_scores data))
      by now apply sorted_reverse_sorted.
    assert (Hn' : no_nan (StockComparator.momentum_scores data))
      by (eapply no_nan_perm; [symmetry; exact Hp | exact Hn]).
    assert (Hlen : List.length (StockComparator.momentum_scores data)
                   = List.length data).
    { rewrite (Permutation_length Hp). unfold scored, Dict.keys.
      now rewrite !length_map. }
    destruct (StockComparator.momentum_scores data) as [| h l] eqn:E.
    { destruct data; [contradiction | simpl in Hlen; lia]. }
    exists h. split; [now rewrite Hh |].
    split; [exists l; now rewrite Hm |].
    split; [eapply Permutation_in; [exact Hp | now left] |].
    split; [now rewrite Hm |].
    intros sym Hin.
    apply (sorted_head_greatest h l Hn' Hs
             (sym, StockComparator.get_momentum_score data sym)).
    eapply Permutation_in; [symmetry; exact Hp |].
    unfold scored.
    apply (in_map (fun s => (s, StockComparator.get_momentum_score data s))).
    exact Hin.
  - intros Hd. split; [now apply report_returns |].
    intros Hnot. destruct (report_raises data Hd) as [E | E]; [exact E |].
    contradiction Hnot. now apply report_returns.
Qed.

Lemma highest_momentum_greatest_witness :
  exists r h,
    StockComparator.generate_report data_abc = Returned (Some r)
    /\ StockComparator.highest_momentum r = Some h
    /\ In h (scored data_abc).
Proof.
  assert (Hn : no_nan (scored data_abc)) by (vm_compute; repeat constructor).
  destruct (highest_momentum_greatest data_abc Hn) as [H _].
  destruct (StockComparator.generate_report data_abc) as [[r |] |] eqn:E;
    [| vm_compute in E; discriminate | vm_compute in E; discriminate].
  destruct (H r eq_refl) as [h [Hh [_ [Hin _]]]].
  exists r, h. repeat split; assumption.
Defined.
